(** * The manual page of dotland (src/pages/manual.tsx)

    A shallow embedding of the state and routing logic of the [Manual]
    component: route interpretation, the [.md] redirect, the flattened page
    list with its previous/next links, the content loader, the placeholder
    substitution, the version switcher and the search overlay. *)

From Stdlib Require Import ZArith Lia Ascii.
From stdpp Require Import base option list gmap strings.

Local Open Scope Z_scope.

(** ** JavaScript values and string primitives used by the page *)

Module Js.

(** Truthiness of a string: the empty string is the only falsy one. *)
Definition truthy (s : string) : bool :=
  match s with
  | EmptyString => false
  | String _ _ => true
  end.

(** [a || b] on values of type [string | undefined], [undefined] being
    [None]. *)
Definition or_else (a b : option string) : option string :=
  match a with
  | Some s => if truthy s then Some s else b
  | None => b
  end.

(** [Array.prototype.join] on an array of strings. *)
Fixpoint join (sep : string) (parts : list string) : string :=
  match parts with
  | [] => ""
  | [p] => p
  | p :: (_ :: _) as more => p +:+ sep +:+ join sep more
  end.

(** [String.prototype.endsWith]. *)
Fixpoint endsWith (s suffix : string) : bool :=
  String.eqb s suffix
  || match s with
     | EmptyString => false
     | String _ s' => endsWith s' suffix
     end.

(** [s.replace(/\.md$/, "")]: the pattern is tried at every start position
    from the left; it matches where the rest of the input is exactly
    [.md], and the match is replaced by the empty string. *)
Fixpoint replace_md_suffix (s : string) : string :=
  if String.eqb s ".md" then ""
  else match s with
       | EmptyString => ""
       | String c s' => String c (replace_md_suffix s')
       end.

(** [arr[i]] for an integer [i]: [undefined] out of range, also for
    negative indices. *)
Definition array_get {A} (arr : list A) (i : Z) : option A :=
  if i <? 0 then None else arr !! Z.to_nat i.

(** [Array.prototype.findIndex]: the loop over indices, [-1] when no
    element satisfies the predicate. *)
Fixpoint findIndex_from {A} (p : A → bool) (k : Z) (arr : list A) : Z :=
  match arr with
  | [] => -1
  | x :: rest => if p x then k else findIndex_from p (k + 1) rest
  end.

Definition findIndex {A} (p : A → bool) (arr : list A) : Z :=
  findIndex_from p 0 arr.

(** [GetSubstitution] of ECMAScript for a pattern without capture groups:
    in the replacement text [$$] stands for a dollar sign, [$&] for the
    matched text, [$`] for the input before the match and [$'] for the
    input after it; every other character, a dollar sign included, is
    copied. *)
Fixpoint GetSubstitution (matched before after replacement : string)
  : string :=
  match replacement with
  | EmptyString => ""
  | String c r =>
      if Ascii.eqb c "$"%char then
        match r with
        | EmptyString => String c ""
        | String d r' =>
            if Ascii.eqb d "$"%char then
              String "$"%char (GetSubstitution matched before after r')
            else if Ascii.eqb d "&"%char then
              matched +:+ GetSubstitution matched before after r'
            else if Ascii.eqb d "`"%char then
              before +:+ GetSubstitution matched before after r'
            else if Ascii.eqb d "'"%char then
              after +:+ GetSubstitution matched before after r'
            else String c (GetSubstitution matched before after r)
        end
      else String c (GetSubstitution matched before after r)
  end.

(** Drop the first [n] characters. *)
Fixpoint drop_chars (n : nat) (s : string) : string :=
  match n, s with
  | O, _ => s
  | S n', String _ s' => drop_chars n' s'
  | S _, EmptyString => ""
  end.

(** [input.replace(/tok/g, replacement)] for a literal, non-empty token
    [tok]: a scan from the left; [before] is the input consumed so far and
    [skip] counts the characters of the current match that are still to be
    passed over. *)
Fixpoint replace_scan (tok replacement before : string) (skip : nat)
    (s : string) : string :=
  match s with
  | EmptyString => ""
  | String c s' =>
      let before' := before +:+ String c "" in
      match skip with
      | S k => replace_scan tok replacement before' k s'
      | O =>
          if String.prefix tok s then
            GetSubstitution tok before
              (drop_chars (String.length tok) s) replacement
            +:+ replace_scan tok replacement before'
                  (Nat.pred (String.length tok)) s'
          else String c (replace_scan tok replacement before' O s')
      end
  end.

Definition replaceAll (tok replacement input : string) : string :=
  replace_scan tok replacement "" O input.

End Js.

(** ** Plain objects and replacer values *)

Module Runtime.

(** The outcome of evaluating an expression that may throw a [TypeError]. *)
Inductive Outcome :=
| Returned (text : string)
| Thrown.

(** What a member inherited from the prototype is to
    [String.prototype.replace]: a function is called for every match, with
    [this] undefined and the arguments (matched text, position, input), and
    what it returns is converted to a string and inserted as it stands; any
    other object is converted to a string once, which serves as the
    replacement text. *)
Inductive Member :=
| Function (call : string → nat → string → Outcome)
| NonCallable (text : string).

(** A plain object with string values, as a JSON file yields it: its own
    entries and the members it inherits from its prototype. *)
Record Object := {
  own : gmap string string;
  inherited : string → option Member
}.

(** The value of [object[key]]. *)
Inductive Value :=
| VString (s : string)
| VMember (m : Member)
| VUndefined.

Definition get (object : Object) (key : string) : Value :=
  match own object !! key with
  | Some s => VString s
  | None =>
      match inherited object key with
      | Some m => VMember m
      | None => VUndefined
      end
  end.

(** [array[0]] as a value. *)
Definition of_element (element : option string) : Value :=
  match element with
  | Some s => VString s
  | None => VUndefined
  end.

(** The members of [Object.prototype] (ECMAScript, Annex B included), each
    as [replace] sees it.  Called with [this] undefined, [Object] wraps the
    matched text, [toString] answers for undefined, [isPrototypeOf] answers
    [false] for an argument that is no object, and the others throw on
    converting [this] to an object; [__proto__] reads the prototype itself,
    which is no function. *)
Definition Object_prototype (key : string) : option Member :=
  if String.eqb key "constructor" then
    Some (Function (λ matched _ _, Returned matched))
  else if String.eqb key "toString" then
    Some (Function (λ _ _ _, Returned "[object Undefined]"))
  else if String.eqb key "isPrototypeOf" then
    Some (Function (λ _ _ _, Returned "false"))
  else if String.eqb key "valueOf" || String.eqb key "toLocaleString"
          || String.eqb key "hasOwnProperty"
          || String.eqb key "propertyIsEnumerable"
          || String.eqb key "__defineGetter__"
          || String.eqb key "__defineSetter__"
          || String.eqb key "__lookupGetter__"
          || String.eqb key "__lookupSetter__" then
    Some (Function (λ _ _ _, Thrown))
  else if String.eqb key "__proto__" then
    Some (NonCallable "[object Object]")
  else None.

(** [input.replace(/tok/g, call)] for a literal, non-empty token and a
    replacer function: a scan from the left, [position] being the index of
    the next character and [skip] the characters of the current match still
    to be passed over. *)
Fixpoint replace_call_scan (tok : string)
    (call : string → nat → string → Outcome) (whole : string)
    (position skip : nat) (s : string) : Outcome :=
  match s with
  | EmptyString => Returned ""
  | String c s' =>
      match skip with
      | S k => replace_call_scan tok call whole (S position) k s'
      | O =>
          if String.prefix tok s then
            match call tok position whole with
            | Returned inserted =>
                match replace_call_scan tok call whole (S position)
                        (Nat.pred (String.length tok)) s' with
                | Returned rest => Returned (inserted +:+ rest)
                | Thrown => Thrown
                end
            | Thrown => Thrown
            end
          else
            match replace_call_scan tok call whole (S position) O s' with
            | Returned rest => Returned (String c rest)
            | Thrown => Thrown
            end
      end
  end.

(** [input.replace(/tok/g, value)] for a value read from a plain object or
    an array of strings. *)
Definition replace_by (tok : string) (value : Value) (input : string)
  : Outcome :=
  match value with
  | VString s => Returned (Js.replaceAll tok s input)
  | VUndefined => Returned (Js.replaceAll tok "undefined" input)
  | VMember (NonCallable text) => Returned (Js.replaceAll tok text input)
  | VMember (Function call) => replace_call_scan tok call input O O input
  end.

End Runtime.

(** ** The version manifest

    versions.json is imported by the page and is not part of the sources at
    hand; the page reads [cli[0]], [std[0]] and [cli_to_std[version]] from
    it, and it is taken as a parameter of that shape; [cli_to_std] is a
    plain object. *)

Record VersionMeta := {
  cli : list string;
  std : list string;
  cli_to_std : Runtime.Object
}.

(** ** Route interpretation *)

(** Modelled from the spec: [parseNameVersion] of src/util/registry_utils.ts,
    which is not part of the sources at hand.  Section 4.1 says the first
    segment "is parsed for an embedded name@version form": the name is what
    precedes the first [@], the version what follows it; without [@] there
    is no version. *)
Fixpoint parseNameVersion (nameVersion : string) : string * option string :=
  match nameVersion with
  | EmptyString => ("", None)
  | String c rest =>
      if Ascii.eqb c "@"%char then ("", Some rest)
      else let '(name, version) := parseNameVersion rest in
           (String c name, version)
  end.

Module Route.
Section Interpreter.

(** The parser of the first segment and the manifest are what the
    component imports; the second component of a parse is the version,
    possibly [undefined]. *)
Variable parse : string → string * option string.
Variable versionMeta : VersionMeta.

Record Resolved := {
  version : option string;   (* string | undefined *)
  path : string
}.

(** The [useMemo] at the top of [Manual]; [rest] is [params.rest],
    possibly [undefined]. *)
Definition interpret (rest : option (list string)) : Resolved :=
  let segments := default [] rest in
  let identifier := head segments in
  let pathParts := tail segments in
  let path :=
    if decide (length pathParts = 0%nat) then ""
    else "/" +:+ Js.join "/" pathParts in
  let version :=
    Js.or_else (parse (default "" identifier)).2 (cli versionMeta !! 0%nat) in
  {| version := version;
     path := if Js.truthy path then path else "/introduction" |}.

End Interpreter.
End Route.

(** The interpreter as the page runs it. *)
Definition route (versionMeta : VersionMeta) (rest : option (list string))
  : Route.Resolved :=
  Route.interpret parseNameVersion versionMeta rest.

(** ** Table of contents and the flattened page list *)

Module Toc.

(** An entry of the table of contents; [children] is optional. *)
Record Entry := {
  name : string;
  children : option (list (string * string))
}.

(** The table of contents as the sequence of pairs that [Object.entries]
    enumerates, in that order; likewise for the children of an entry. *)
Definition TableOfContents := list (string * Entry).

End Toc.

Module PageList.

Record Entry := {
  path : string;
  name : string
}.

(** [tempList.push(x)] *)
Definition push (tempList : list Entry) (x : Entry) : list Entry :=
  tempList ++ [x].

(** The body of the [forEach] of the page-list effect for one
    [(slug, entry)] pair, acting on [tempList]. *)
Definition visit (tempList : list Entry) (item : string * Toc.Entry)
  : list Entry :=
  let '(slug, entry) := item in
  let tempList :=
    push tempList {| path := "/manual/" +:+ slug; name := Toc.name entry |} in
  match Toc.children entry with
  | Some kids =>
      fold_left
        (λ acc '(childSlug, name),
           push acc {| path := "/manual/" +:+ slug +:+ "/" +:+ childSlug;
                       name := name |})
        kids tempList
  | None => tempList
  end.

(** [tempList] after the [forEach] over the whole table of contents. *)
Definition flatten (toc : Toc.TableOfContents) : list Entry :=
  fold_left visit toc [].

(** [tempList.findIndex((page) => page.path === `/manual${path}`)] *)
Definition indexOf (tempList : list Entry) (path : string) : Z :=
  Js.findIndex (λ page, String.eqb (PageList.path page) ("/manual" +:+ path))
    tempList.

End PageList.

(** ** Promises of the content loader *)

Module Loader.

Inductive Error :=
| NetworkError
| StatusError (status : Z)   (* thrown by the loader for a status ≠ 200 *)
| BodyError.                 (* [res.text()] rejected *)

Inductive Promise (A : Type) :=
| Fulfilled (a : A)
| Rejected (e : Error).
Arguments Fulfilled {A} a.
Arguments Rejected {A} e.

(** [p.then(f)], where [f] may throw or return another promise. *)
Definition then_ {A B} (p : Promise A) (f : A → Promise B) : Promise B :=
  match p with
  | Fulfilled a => f a
  | Rejected e => Rejected e
  end.

(** [p.catch(h)] *)
Definition catch_ {A} (p : Promise A) (h : Error → A) : A :=
  match p with
  | Fulfilled a => a
  | Rejected e => h e
  end.

Record Response := {
  status : Z;
  text : Promise string
}.

Definition not_found : string :=
  "# 404 - Not Found" +:+ String "010"%char
    "Whoops, the page does not seem to exist.".

(** What is written to the console. *)
Inductive Log :=
| FailedToFetchContent (e : Error).

(** The first [then] callback of the content fetch. *)
Definition check_status (res : Response) : Promise string :=
  if decide (status res ≠ 200) then Rejected (StatusError (status res))
  else text res.

(** The value handed to [setContent] once the chain
    [fetch(..).then(..).then(setContent).catch(..)] has settled, with what
    was logged. *)
Definition settled_content (fetched : Promise Response)
  : string * list Log :=
  catch_
    (then_ (then_ fetched check_status) (λ body, Fulfilled (body, [])))
    (λ e, (not_found, [FailedToFetchContent e])).

End Loader.

(** ** State of the page *)

Record PageState := {
  tableOfContents : option Toc.TableOfContents;   (* null = None *)
  content : option string;                        (* null = None *)
  pageIndex : Z;
  pageList : list PageList.Entry;
  isOpen : bool
}.

(** The initial values of the [useState] calls. *)
Definition initial_state : PageState :=
  {| tableOfContents := None; content := None; pageIndex := 0;
     pageList := []; isOpen := false |}.

Definition setTableOfContents (toc : option Toc.TableOfContents)
    (st : PageState) : PageState :=
  {| tableOfContents := toc; content := content st;
     pageIndex := pageIndex st; pageList := pageList st;
     isOpen := isOpen st |}.

Definition setContent (c : option string) (st : PageState) : PageState :=
  {| tableOfContents := tableOfContents st; content := c;
     pageIndex := pageIndex st; pageList := pageList st;
     isOpen := isOpen st |}.

Definition setPageList (l : list PageList.Entry) (st : PageState)
  : PageState :=
  {| tableOfContents := tableOfContents st; content := content st;
     pageIndex := pageIndex st; pageList := l; isOpen := isOpen st |}.

Definition setPageIndex (i : Z) (st : PageState) : PageState :=
  {| tableOfContents := tableOfContents st; content := content st;
     pageIndex := i; pageList := pageList st; isOpen := isOpen st |}.

Definition setIsOpen (b : bool) (st : PageState) : PageState :=
  {| tableOfContents := tableOfContents st; content := content st;
     pageIndex := pageIndex st; pageList := pageList st; isOpen := b |}.

(** ** Effects of the page *)

Module Effects.

(** The page-list effect, run on every change of the table of contents or
    of the path. *)
Definition pageList_effect (path : string) (st : PageState) : PageState :=
  match tableOfContents st with
  | Some toc =>
      let tempList := PageList.flatten toc in
      setPageIndex (PageList.indexOf tempList path) (setPageList tempList st)
  | None => st
  end.

(** The content effect: [setContent(null)] when it starts ... *)
Definition content_effect_start (st : PageState) : PageState :=
  setContent None st.

(** ... and the settled fetch chain afterwards. *)
Definition content_effect_settle (fetched : Loader.Promise Loader.Response)
    (st : PageState) : PageState * list Loader.Log :=
  let '(c, logs) := Loader.settled_content fetched in
  (setContent (Some c) st, logs).

Definition content_effect (fetched : Loader.Promise Loader.Response)
    (st : PageState) : PageState * list Loader.Log :=
  content_effect_settle fetched (content_effect_start st).

End Effects.

(** ** The search overlay *)

Module Search.

(** What a handler does besides updating the state. *)
Inductive Action :=
| PreventDefault
| FocusSearchInput.   (* deferred with [setTimeout(.., 0)] *)

Definition onOpen (st : PageState) : PageState * list Action :=
  (setIsOpen true st, [FocusSearchInput]).

Definition onClose (st : PageState) : PageState * list Action :=
  (setIsOpen false st, []).

(** The global [keypress] listener; [key] is [e.key]. *)
Definition onPress (key : string) (st : PageState)
  : PageState * list Action :=
  if negb (isOpen st) then
    if String.eqb key "/" || String.eqb key "s" then
      let '(st', acts) := onOpen st in (st', PreventDefault :: acts)
    else (st, [])
  else (st, []).

End Search.

(** ** Navigation, substitution and rendering *)

(** Calls into the router: [replace(pattern, url)] and [push(pattern, url)]. *)
Inductive Navigation :=
| Replace (pattern url : string)
| Push (pattern url : string).

(** [`${version ? `@${version}` : ""}`] and its variants. *)
Definition version_suffix (version : option string) : string :=
  match version with
  | Some v => if Js.truthy v then "@" +:+ v else ""
  | None => ""
  end.

(** The redirect of a path that ends in [.md]. *)
Definition md_redirect (version : option string) (path : string)
  : Navigation :=
  Replace "/[...rest]"
    ("/manual"
     +:+ match version with
         | Some v =>
             if Js.truthy v && negb (String.eqb v "") then "@" +:+ v else ""
         | None => ""
         end
     +:+ Js.replace_md_suffix path).

(** [gotoVersion] *)
Definition gotoVersion (path newVersion : string) : Navigation :=
  Push "/[...rest]"
    ("/manual"
     +:+ (if negb (String.eqb newVersion "") then "@" +:+ newVersion else "")
     +:+ path).

(** [stdVersion]: the first std version for an undefined version,
    otherwise [cli_to_std[version] ?? std[0]]. *)
Definition stdVersion (versionMeta : VersionMeta) (version : option string)
  : Runtime.Value :=
  match version with
  | None => Runtime.of_element (std versionMeta !! 0%nat)
  | Some v =>
      match Runtime.get (cli_to_std versionMeta) v with
      | Runtime.VUndefined => Runtime.of_element (std versionMeta !! 0%nat)
      | value => value
      end
  end.

(** A [string | undefined] replacement argument is converted to a string. *)
Definition to_replacement (v : option string) : string :=
  default "undefined" v.

(** The [source] handed to the Markdown component, or the exception its
    evaluation throws. *)
Definition markdown_source (versionMeta : VersionMeta)
    (version : option string) (content : string) : Runtime.Outcome :=
  match Runtime.replace_by "$STD_VERSION" (stdVersion versionMeta version)
          content with
  | Runtime.Returned substituted =>
      Runtime.Returned
        (Js.replaceAll "$CLI_VERSION" (to_replacement version) substituted)
  | Runtime.Thrown => Runtime.Thrown
  end.

(** The part of the view below the banner: the Markdown source with the
    previous and next links, each given by the page-list entry it shows. *)
Record Article := {
  source : string;
  displayURL : string;
  baseURL : string;
  prev_link : option PageList.Entry;
  next_link : option PageList.Entry
}.

Record View := {
  search_modal : bool;
  article : option Article     (* None: the loading skeleton *)
}.

(** The effects a render pass declares. *)
Inductive Effect :=
| FetchTableOfContents (version : option string)
| BuildPageList (path : string)
| FetchContent (version : option string) (path : string)
| ListenKeypress.

Inductive Rendered :=
| Redirected (nav : Navigation)                 (* returns an empty fragment *)
| Page (view : View) (effects : list Effect)
| Crashed.                         (* the render pass threw a [TypeError] *)

(** The article for a [source] already computed from the content. *)
Definition render_article (versionMeta : VersionMeta)
    (version : option string) (path : string) (st : PageState)
    (source : string) : Article :=
  {| source := source;
     displayURL := "https://deno.land/manual" +:+ version_suffix version
                   +:+ path;
     baseURL := "https://deno.land/manual" +:+ version_suffix version;
     prev_link := Js.array_get (pageList st) (pageIndex st - 1);
     next_link := Js.array_get (pageList st) (pageIndex st + 1) |}.

(** One render pass of [Manual]. *)
Definition Manual (versionMeta : VersionMeta) (rest : option (list string))
    (st : PageState) : Rendered :=
  let r := route versionMeta rest in
  let version := Route.version r in
  let path := Route.path r in
  let effects :=
    [FetchTableOfContents version; BuildPageList path;
     FetchContent version path; ListenKeypress] in
  let skeleton := Page {| search_modal := isOpen st; article := None |} effects in
  if Js.endsWith path ".md" then Redirected (md_redirect version path)
  else
    match content st with
    | Some c =>
        if Js.truthy c then
          match markdown_source versionMeta version c with
          | Runtime.Returned source =>
              Page
                {| search_modal := isOpen st;
                   article :=
                     Some (render_article versionMeta version path st source) |}
                effects
          | Runtime.Thrown => Crashed
          end
        else skeleton
    | None => skeleton
    end.

(** What a render pass leaves behind: the effects it declared and the view it
    returned.  The early return of the redirect precedes every hook. *)
Definition effects_of (out : Rendered) : list Effect :=
  match out with
  | Redirected _ => []
  | Page _ effects => effects
  | Crashed => []
  end.

Definition view_of (out : Rendered) : option View :=
  match out with
  | Redirected _ => None
  | Page view _ => Some view
  | Crashed => None
  end.

(** ** The operations as the specification words them *)

Module Spec.

(** The entries one top-level slug contributes: its own entry, then one
    entry per child. *)
Definition pages_of (item : string * Toc.Entry) : list PageList.Entry :=
  let '(slug, entry) := item in
  {| PageList.path := "/manual/" +:+ slug; PageList.name := Toc.name entry |}
  :: map (λ '(childSlug, m),
            {| PageList.path := "/manual/" +:+ slug +:+ "/" +:+ childSlug;
               PageList.name := m |})
       (default [] (Toc.children entry)).

(** Every occurrence of [tok], found from the left, is replaced by
    [replacement] as it stands. *)
Fixpoint substitute_scan (tok replacement : string) (skip : nat)
    (s : string) : string :=
  match s with
  | EmptyString => ""
  | String c s' =>
      match skip with
      | S k => substitute_scan tok replacement k s'
      | O =>
          if String.prefix tok s then
            replacement
            +:+ substitute_scan tok replacement
                  (Nat.pred (String.length tok)) s'
          else String c (substitute_scan tok replacement O s')
      end
  end.

Definition substitute_all (tok replacement input : string) : string :=
  substitute_scan tok replacement O input.

(** The text holds no dollar sign. *)
Fixpoint plain (s : string) : bool :=
  match s with
  | EmptyString => true
  | String c s' => negb (Ascii.eqb c "$"%char) && plain s'
  end.

(** The text holds no [@]. *)
Fixpoint no_at (s : string) : bool :=
  match s with
  | EmptyString => true
  | String c s' => negb (Ascii.eqb c "@"%char) && no_at s'
  end.

End Spec.

(** ** Sample data used to exercise the statements *)

Module Sample.

Definition versionMeta : VersionMeta :=
  {| cli := ["v1.21.0"; "v1.20.0"];
     std := ["0.140.0"; "0.139.0"];
     cli_to_std :=
       {| Runtime.own := {[ "v1.21.0" := "0.140.0"; "v1.20.0" := "0.139.0" ]};
          Runtime.inherited := Runtime.Object_prototype |} |}.

(** [{a: {name: "A", children: {x: "X"}}, b: {name: "B"}}] *)
Definition toc : Toc.TableOfContents :=
  [ ("a", {| Toc.name := "A"; Toc.children := Some [("x", "X")] |});
    ("b", {| Toc.name := "B"; Toc.children := None |}) ].

(** [{a: {name: "A"}}] *)
Definition small_toc : Toc.TableOfContents :=
  [ ("a", {| Toc.name := "A"; Toc.children := None |}) ].

(** The content request answers 404. *)
Definition missing : Loader.Response :=
  {| Loader.status := 404; Loader.text := Loader.Fulfilled "404: Not Found" |}.

(** The page state once [small_toc] has been stored, the content request
    for [path] has answered 404 and the page-list effect has run. *)
Definition not_listed (path : string) : PageState :=
  Effects.pageList_effect path
    (Effects.content_effect (Loader.Fulfilled missing)
       (setTableOfContents (Some small_toc) initial_state)).1.

End Sample.

(** ** The rest of the page: links, sidebar, switcher, title *)

Module Links.

(** [s.replace(pattern, replacement)] with a string pattern: the first
    occurrence from the left is replaced, the replacement text being
    expanded as for a regular expression without groups. *)
Fixpoint replace_first_scan (pattern replacement before s : string)
  : string :=
  if String.prefix pattern s then
    Js.GetSubstitution pattern before
      (Js.drop_chars (String.length pattern) s) replacement
    +:+ Js.drop_chars (String.length pattern) s
  else
    match s with
    | EmptyString => ""
    | String c s' =>
        String c
          (replace_first_scan pattern replacement (before +:+ String c "") s')
    end.

Definition replace_first (pattern replacement s : string) : string :=
  replace_first_scan pattern replacement "" s.

(** The [href] of a previous or next link. *)
Definition link_href (version : option string) (page : PageList.Entry)
  : string :=
  match version with
  | Some v =>
      if Js.truthy v
      then replace_first "manual" ("manual@" +:+ v) (PageList.path page)
      else PageList.path page
  | None => PageList.path page
  end.

End Links.

Module Sidebar.

(** One anchor of the sidebar; [active] tells whether it carries the
    [toc-active] class. *)
Record Anchor := {
  href : string;
  label : string;
  active : bool
}.

(** One list item of [ToC]: the anchor of the slug and, when the entry has
    children, the nested list of their anchors. *)
Record Item := {
  anchor : Anchor;
  nested : option (list Anchor)
}.

(** The list items [ToC] renders. *)
Definition ToC (tableOfContents : Toc.TableOfContents)
    (version : option string) (path : string) : list Item :=
  map (λ '(slug, entry),
         {| anchor :=
              {| href := "/manual" +:+ version_suffix version +:+ "/" +:+ slug;
                 label := Toc.name entry;
                 active := String.eqb path ("/" +:+ slug) |};
            nested :=
              match Toc.children entry with
              | Some kids =>
                  Some
                    (map (λ '(childSlug, name),
                            {| href := "/manual" +:+ version_suffix version
                                       +:+ "/" +:+ slug +:+ "/" +:+ childSlug;
                               label := name;
                               active :=
                                 String.eqb path
                                   ("/" +:+ slug +:+ "/" +:+ childSlug) |})
                       kids)
              | None => None
              end |})
    tableOfContents.

(** The anchors in document order. *)
Definition anchors (items : list Item) : list Anchor :=
  flat_map (λ item, anchor item :: default [] (nested item)) items.

End Sidebar.

Module Switcher.

(** [versions.includes(version)] *)
Definition includes (versions : list string) (version : string) : bool :=
  existsb (String.eqb version) versions.

(** The values of the options of the [select], in order. *)
Definition options (version : option string) (versions : list string)
  : list string :=
  (match version with
   | Some v =>
       if Js.truthy v && negb (String.eqb v "main")
          && negb (includes versions v)
       then [v] else []
   | None => []
   end)
  ++ "main" :: versions.

(** The [value] of the [select]: [version ?? versions[0]]. *)
Definition selected (version : option string) (versions : list string)
  : option string :=
  match version with
  | Some v => Some v
  | None => versions !! 0%nat
  end.

End Switcher.

Module Title.

(** [map.get(path) || ""], the argument of [setPageTitle]. *)
Definition resolve (tableOfContentsMap : gmap string string) (path : string)
  : string :=
  default "" (Js.or_else (tableOfContentsMap !! path) (Some "")).

(** The text of the [title] element. *)
Definition document_title (pageTitle : string) : string :=
  if String.eqb pageTitle "" then "Manual | Deno"
  else pageTitle +:+ " | Manual | Deno".

End Title.

(** ** Runs of the keypress listener *)

Module Keys.

(** The listener applied to the keys of successive [keypress] events; the
    actions are collected in order. *)
Fixpoint run (keys : list string) (st : PageState)
  : PageState * list Search.Action :=
  match keys with
  | [] => (st, [])
  | key :: more =>
      let '(st1, acts1) := Search.onPress key st in
      let '(st2, acts2) := run more st1 in
      (st2, acts1 ++ acts2)
  end.

Definition hotkey (key : string) : bool :=
  String.eqb key "/" || String.eqb key "s".

End Keys.

(** ** Content as a sequence of texts and placeholders *)

Module Template.

Inductive Segment :=
| Text (s : string)
| CliToken          (* [$CLI_VERSION] *)
| StdToken.         (* [$STD_VERSION] *)

Definition raw (seg : Segment) : string :=
  match seg with
  | Text s => s
  | CliToken => "$CLI_VERSION"
  | StdToken => "$STD_VERSION"
  end.

(** The content a sequence of segments spells. *)
Fixpoint assemble (segs : list Segment) : string :=
  match segs with
  | [] => ""
  | seg :: more => raw seg +:+ assemble more
  end.

(** The same sequence with the placeholders filled in. *)
Fixpoint filled (cliVersion stdVersion : string) (segs : list Segment)
  : string :=
  match segs with
  | [] => ""
  | Text s :: more => s +:+ filled cliVersion stdVersion more
  | CliToken :: more => cliVersion +:+ filled cliVersion stdVersion more
  | StdToken :: more => stdVersion +:+ filled cliVersion stdVersion more
  end.

(** Every text of the sequence is free of dollar signs. *)
Definition plain_texts (segs : list Segment) : bool :=
  forallb (λ seg, match seg with Text s => Spec.plain s | _ => true end) segs.

End Template.

(** ** Well-formed tables of contents *)

Module Slugs.

(** The text holds no slash. *)
Fixpoint no_slash (s : string) : bool :=
  match s with
  | EmptyString => true
  | String c s' => negb (Ascii.eqb c "/"%char) && no_slash s'
  end.

(** Slugs are unique at the top level and below every entry, and no
    top-level slug holds a slash. *)
Definition well_formed (toc : Toc.TableOfContents) : Prop :=
  NoDup (map fst toc)
  ∧ Forall (λ item, no_slash item.1 = true
                    ∧ NoDup (map fst (default [] (Toc.children item.2)))) toc.

End Slugs.

(** * Properties *)

(** ** Strings *)

Section StringFacts.

Lemma append_cons (c : ascii) (s t : string) :
  String c s +:+ t = String c (s +:+ t).
Proof. reflexivity. Qed.

Lemma append_nil_l (s : string) : "" +:+ s = s.
Proof. reflexivity. Qed.

Lemma append_nil_r (s : string) : s +:+ "" = s.
Proof.
  induction s as [|c s IH]; [done|]. by rewrite append_cons, IH.
Qed.

Lemma append_assoc (a b c : string) : (a +:+ b) +:+ c = a +:+ b +:+ c.
Proof.
  induction a as [|x a IH]; [done|]. by rewrite !append_cons, IH.
Qed.

Lemma length_append (a b : string) :
  String.length (a +:+ b) = (String.length a + String.length b)%nat.
Proof.
  induction a as [|x a IH]; [done|].
  rewrite append_cons. cbn [String.length Nat.add]. by rewrite IH.
Qed.

Lemma eqb_false_of_length (a b : string) :
  String.length a ≠ String.length b → String.eqb a b = false.
Proof. intros H. apply String.eqb_neq. intros ->. by apply H. Qed.

Lemma truthy_cons (c : ascii) (s : string) : Js.truthy (String c s) = true.
Proof. done. Qed.

Lemma truthy_true (s : string) : Js.truthy s = true ↔ s ≠ "".
Proof. destruct s; simpl; split; intros; congruence. Qed.

Lemma endsWith_refl (s : string) : Js.endsWith s s = true.
Proof. destruct s; cbn [Js.endsWith]; by rewrite String.eqb_refl. Qed.

Lemma endsWith_append (stem suffix : string) :
  Js.endsWith (stem +:+ suffix) suffix = true.
Proof.
  induction stem as [|c stem IH].
  - apply endsWith_refl.
  - rewrite append_cons. cbn [Js.endsWith]. rewrite IH. apply orb_true_r.
Qed.

Lemma endsWith_inv (s suffix : string) :
  Js.endsWith s suffix = true → ∃ stem, s = stem +:+ suffix.
Proof.
  induction s as [|c s IH]; cbn [Js.endsWith]; intros H.
  - apply orb_true_iff in H as [H | H]; [|done].
    apply String.eqb_eq in H as <-. by exists "".
  - apply orb_true_iff in H as [H | H].
    + apply String.eqb_eq in H as <-. by exists "".
    + destruct (IH H) as [stem ->]. by exists (String c stem).
Qed.

Lemma replace_md_suffix_append (stem : string) :
  Js.replace_md_suffix (stem +:+ ".md") = stem.
Proof.
  induction stem as [|c stem IH]; [done|].
  rewrite append_cons. cbn [Js.replace_md_suffix].
  rewrite eqb_false_of_length.
  - by rewrite IH.
  - cbn [String.length]. rewrite length_append. simpl. lia.
Qed.

Lemma replace_md_suffix_other (s : string) :
  Js.endsWith s ".md" = false → Js.replace_md_suffix s = s.
Proof.
  induction s as [|c s IH]; [done|].
  cbn [Js.endsWith Js.replace_md_suffix]. intros H.
  apply orb_false_iff in H as [-> H]. by rewrite IH.
Qed.

End StringFacts.

(** ** Arrays *)

Section ArrayFacts.
Context {A : Type}.
Implicit Types (arr : list A) (p : A → bool).

Lemma array_get_negative arr (i : Z) : i < 0 → Js.array_get arr i = None.
Proof.
  intros Hi. unfold Js.array_get.
  destruct (Z.ltb_spec i 0) as [_|Hge]; [done | lia].
Qed.

Lemma array_get_zero arr : Js.array_get arr 0 = head arr.
Proof. by destruct arr. Qed.

Lemma findIndex_from_range p (k : Z) arr :
  0 ≤ k →
  Js.findIndex_from p k arr = -1
  ∨ k ≤ Js.findIndex_from p k arr < k + Z.of_nat (length arr).
Proof.
  revert k. induction arr as [|x arr IH]; intros k Hk; [by left|].
  cbn [Js.findIndex_from length]. destruct (p x).
  - right. lia.
  - destruct (IH (k + 1)) as [->|?]; [lia | by left | right; lia].
Qed.

(** [findIndex] answers [-1] exactly when no element passes the test. *)
Lemma findIndex_from_not_found p (k : Z) arr :
  0 ≤ k →
  Js.findIndex_from p k arr = -1 ↔ Forall (λ x, p x = false) arr.
Proof.
  revert k. induction arr as [|x arr IH]; intros k Hk.
  - split; [constructor | done].
  - cbn [Js.findIndex_from]. destruct (p x) eqn:Hx.
    + split; [lia|]. intros H. apply Forall_cons_1 in H as [? _]. congruence.
    + rewrite IH by lia. split.
      * by constructor.
      * intros H. by apply Forall_cons_1 in H as [_ ?].
Qed.

End ArrayFacts.

(** ** The page list *)

Section PageListFacts.

Lemma fold_children (slug : string) (kids : list (string * string))
    (acc : list PageList.Entry) :
  fold_left
    (λ acc '(childSlug, name),
       PageList.push acc
         {| PageList.path := "/manual/" +:+ slug +:+ "/" +:+ childSlug;
            PageList.name := name |})
    kids acc
  = acc ++ map (λ '(childSlug, m),
                  {| PageList.path :=
                       "/manual/" +:+ slug +:+ "/" +:+ childSlug;
                     PageList.name := m |}) kids.
Proof.
  revert acc. induction kids as [|[c m] kids IH]; intros acc.
  - by rewrite app_nil_r.
  - cbn [fold_left map]. rewrite IH. unfold PageList.push.
    by rewrite <- app_assoc.
Qed.

Lemma visit_appends (acc : list PageList.Entry) (item : string * Toc.Entry) :
  PageList.visit acc item = acc ++ Spec.pages_of item.
Proof.
  destruct item as [slug [name kids]]. unfold PageList.visit, Spec.pages_of.
  cbn [Toc.children Toc.name]. destruct kids as [kids|]; cbn [default].
  - rewrite fold_children. unfold PageList.push. by rewrite <- app_assoc.
  - done.
Qed.

Lemma fold_visit (toc : Toc.TableOfContents) (acc : list PageList.Entry) :
  fold_left PageList.visit toc acc = acc ++ flat_map Spec.pages_of toc.
Proof.
  revert acc. induction toc as [|item toc IH]; intros acc.
  - by rewrite app_nil_r.
  - cbn [fold_left flat_map]. rewrite IH, visit_appends.
    by rewrite <- app_assoc.
Qed.

(** With index [-1] the previous link reads position [-2] and the next
    link position [0]. *)
Lemma links_at_minus_one (versionMeta : VersionMeta)
    (version : option string) (path c : string) (st : PageState) :
  pageIndex st = -1 →
  prev_link (render_article versionMeta version path st c) = None
  ∧ next_link (render_article versionMeta version path st c)
    = head (pageList st).
Proof.
  intros Hi. cbn [render_article prev_link next_link]. rewrite Hi. split.
  - by apply array_get_negative.
  - change (-1 + 1) with 0. apply array_get_zero.
Qed.

(** A path that no entry of the page list carries: the index is [-1], and
    the next link shows the first page of the list. *)
Lemma links_when_not_listed (versionMeta : VersionMeta)
    (version : option string) (path c : string) (st : PageState)
    (toc : Toc.TableOfContents) :
  tableOfContents st = Some toc →
  Forall (λ page, PageList.path page ≠ "/manual" +:+ path)
    (PageList.flatten toc) →
  let st' := Effects.pageList_effect path st in
  pageIndex st' = -1
  ∧ prev_link (render_article versionMeta version path st' c) = None
  ∧ next_link (render_article versionMeta version path st' c)
    = head (PageList.flatten toc).
Proof.
  intros Htoc Hnone st'.
  assert (pageIndex st' = -1) as Hi.
  { subst st'. unfold Effects.pageList_effect. rewrite Htoc.
    cbn [pageIndex setPageIndex]. unfold PageList.indexOf, Js.findIndex.
    apply findIndex_from_not_found; [lia|].
    eapply Forall_impl; [exact Hnone|]. intros page Hp.
    by apply String.eqb_neq. }
  split; [exact Hi|].
  destruct (links_at_minus_one versionMeta version path c st' Hi) as [Hp Hn].
  split; [exact Hp|]. rewrite Hn. subst st'.
  unfold Effects.pageList_effect. by rewrite Htoc.
Qed.

End PageListFacts.

(** ** The first route segment *)

Section ParseFacts.

Lemma parse_embedded (name v : string) :
  Spec.no_at name = true →
  parseNameVersion (name +:+ "@" +:+ v) = (name, Some v).
Proof.
  induction name as [|c name IH]; intros Hname; [done|].
  cbn [Spec.no_at] in Hname. apply andb_true_iff in Hname as [Hc Hname].
  rewrite append_cons. cbn [parseNameVersion].
  apply negb_true_iff in Hc as ->. by rewrite IH.
Qed.

Lemma parse_plain (identifier : string) :
  Spec.no_at identifier = true →
  parseNameVersion identifier = (identifier, None).
Proof.
  induction identifier as [|c s IH]; intros Hs; [done|].
  cbn [Spec.no_at] in Hs. apply andb_true_iff in Hs as [Hc Hs].
  cbn [parseNameVersion]. apply negb_true_iff in Hc as ->. by rewrite IH.
Qed.

Lemma or_else_nonempty (a : string) (b : option string) :
  a ≠ "" → Js.or_else (Some a) b = Some a.
Proof. intros Ha. unfold Js.or_else. by destruct a. Qed.

Lemma or_else_empty (b : option string) : Js.or_else (Some "") b = b.
Proof. done. Qed.

Lemma or_else_undefined (b : option string) : Js.or_else None b = b.
Proof. done. Qed.

Lemma route_version_cons (versionMeta : VersionMeta) (identifier : string)
    (more : list string) :
  Route.version (route versionMeta (Some (identifier :: more)))
  = Js.or_else (parseNameVersion identifier).2 (cli versionMeta !! 0%nat).
Proof. reflexivity. Qed.

Lemma route_version_none (versionMeta : VersionMeta) :
  Route.version (route versionMeta (Some [])) = cli versionMeta !! 0%nat
  ∧ Route.version (route versionMeta None) = cli versionMeta !! 0%nat.
Proof. split; reflexivity. Qed.

Lemma version_suffix_md (version : option string) :
  match version with
  | Some v => if Js.truthy v && negb (String.eqb v "") then "@" +:+ v else ""
  | None => ""
  end = version_suffix version.
Proof. destruct version as [[|c v]|]; done. Qed.

End ParseFacts.

(** ** Claims about the flattened page list *)

(** C1: flattening a table of contents yields, for every top-level slug in
    the order of enumeration, its entry [/manual/slug] followed at once by
    the entries [/manual/slug/child] of its children in their order; the
    table [{a: {name: "A", children: {x: "X"}}, b: {name: "B"}}] flattens to
    [/manual/a "A"], [/manual/a/x "X"], [/manual/b "B"]. *)
Theorem C1_flatten_order (toc : Toc.TableOfContents) :
  PageList.flatten toc = flat_map Spec.pages_of toc
  ∧ PageList.flatten Sample.toc
    = [ {| PageList.path := "/manual/a"; PageList.name := "A" |};
        {| PageList.path := "/manual/a/x"; PageList.name := "X" |};
        {| PageList.path := "/manual/b"; PageList.name := "B" |} ].
Proof.
  split; [|reflexivity].
  unfold PageList.flatten. by rewrite fold_visit.
Qed.

(** C2, at an input where the code departs from it: with the table
    [{a: {name: "A"}}] loaded and the route [manual/zzz], whose path is not
    in the page list, the current index is [-1], the previous link is not
    rendered, and the next link is rendered and shows the first page. *)
Theorem C2_next_link_rendered_when_not_found :
  let rest := Some ["manual"; "zzz"] in
  let st := Sample.not_listed (Route.path (route Sample.versionMeta rest)) in
  pageIndex st = -1
  ∧ ∃ view effects art,
      Manual Sample.versionMeta rest st = Page view effects
      ∧ article view = Some art
      ∧ prev_link art = None
      ∧ next_link art
        = Some {| PageList.path := "/manual/a"; PageList.name := "A" |}.
Proof.
  split; [reflexivity|].
  eexists _, _, _. split; [reflexivity|].
  split; [reflexivity|]. split; reflexivity.
Qed.

(** ** Claims about route interpretation *)

(** C4: when the first segment is [name@v] with a non-empty [v], the derived
    version is [v]; when the first segment carries no version, or there is
    no segment at all, it is the first element of the manifest's [cli]
    list. *)
Theorem C4_version_of_first_segment (versionMeta : VersionMeta)
    (name v identifier : string) (more : list string)
    (Hname : Spec.no_at name = true) (Hv : v ≠ "")
    (Hid : Spec.no_at identifier = true) :
  Route.version (route versionMeta (Some ((name +:+ "@" +:+ v) :: more)))
  = Some v
  ∧ Route.version (route versionMeta (Some (identifier :: more)))
    = cli versionMeta !! 0%nat
  ∧ Route.version (route versionMeta (Some ((name +:+ "@") :: more)))
    = cli versionMeta !! 0%nat
  ∧ Route.version (route versionMeta (Some [])) = cli versionMeta !! 0%nat
  ∧ Route.version (route versionMeta None) = cli versionMeta !! 0%nat.
Proof.
  rewrite !route_version_cons.
  rewrite parse_embedded by done. rewrite parse_plain by done.
  replace (name +:+ "@") with (name +:+ "@" +:+ "") by done.
  rewrite parse_embedded by done. cbn [snd].
  rewrite or_else_nonempty by done. rewrite or_else_empty, or_else_undefined.
  repeat split; apply route_version_none.
Qed.

Lemma C4_version_of_first_segment_witness :
  Spec.no_at "manual" = true ∧ "v1.2.3" ≠ "" ∧ Spec.no_at "manual" = true
  ∧ Route.version
      (route Sample.versionMeta (Some ["manual@v1.2.3"; "introduction"]))
    = Some "v1.2.3"
  ∧ Route.version (route Sample.versionMeta (Some ["manual"; "introduction"]))
    = Some "v1.21.0".
Proof.
  split; [reflexivity|]. split; [discriminate|]. split; [reflexivity|].
  pose proof (C4_version_of_first_segment Sample.versionMeta
                "manual" "v1.2.3" "manual" ["introduction"]
                eq_refl ltac:(discriminate) eq_refl) as (H1 & H2 & _).
  split; [exact H1 | exact H2].
Defined.

Lemma slash_join (p : string) (parts : list string) :
  "/" +:+ Js.join "/" (p :: parts)
  = foldr (λ segment acc, "/" +:+ segment +:+ acc) "" (p :: parts).
Proof.
  revert p. induction parts as [|q parts IH]; intros p.
  - cbn [Js.join foldr]. by rewrite append_nil_r.
  - change (Js.join "/" (p :: q :: parts))
      with (p +:+ "/" +:+ Js.join "/" (q :: parts)).
    rewrite IH. reflexivity.
Qed.

(** C5: when no segment follows the first one the path is [/introduction];
    otherwise it is the remaining segments in their order, each preceded by
    [/], which is [/] followed by the segments separated by [/]: the
    segments [manual], [getting_started], [installation] give
    [/getting_started/installation]. *)
Theorem C5_path_of_remaining_segments
    (parse : string → string * option string)
    (versionMeta : VersionMeta) (rest : option (list string)) :
  Route.path (Route.interpret parse versionMeta rest)
  = match tail (default [] rest) with
    | [] => "/introduction"
    | pathParts =>
        foldr (λ segment acc, "/" +:+ segment +:+ acc) "" pathParts
    end
  ∧ Route.path
      (Route.interpret parse versionMeta
         (Some ["manual"; "getting_started"; "installation"]))
    = "/getting_started/installation".
Proof.
  split; [|reflexivity].
  unfold Route.interpret. cbn [Route.path].
  destruct (tail (default [] rest)) as [|p parts]; [done|].
  rewrite decide_False by done. cbn [Js.truthy].
  change (Js.truthy ("/" +:+ Js.join "/" (p :: parts))) with true.
  cbn iota. apply slash_join.
Qed.

(** C10: provided the manifest's [cli] list starts with a non-empty version,
    the version derived from any segment list is a non-empty string, so
    every version-dependent spot takes its versioned branch: the suffix is
    [@version], the redirect goes to [/manual@version...], and the std
    version is what [cli_to_std[version]] reads, be it an own entry or an
    inherited member, with the first std version as fallback only when that
    is undefined. *)
Theorem C10_version_never_empty (parse : string → string * option string)
    (versionMeta : VersionMeta) (rest : option (list string))
    (latest : string)
    (Hcli : cli versionMeta !! 0%nat = Some latest) (Hlatest : latest ≠ "") :
  ∃ v,
    Route.version (Route.interpret parse versionMeta rest) = Some v
    ∧ v ≠ ""
    ∧ version_suffix (Some v) = "@" +:+ v
    ∧ (∀ path,
         md_redirect (Some v) path
         = Replace "/[...rest]"
             ("/manual@" +:+ v +:+ Js.replace_md_suffix path))
    ∧ stdVersion versionMeta (Some v)
      = match Runtime.get (cli_to_std versionMeta) v with
        | Runtime.VUndefined =>
            Runtime.of_element (std versionMeta !! 0%nat)
        | value => value
        end.
Proof.
  assert (∀ v, v ≠ "" →
            version_suffix (Some v) = "@" +:+ v
            ∧ (∀ path,
                 md_redirect (Some v) path
                 = Replace "/[...rest]"
                     ("/manual@" +:+ v +:+ Js.replace_md_suffix path))
            ∧ stdVersion versionMeta (Some v)
              = match Runtime.get (cli_to_std versionMeta) v with
                | Runtime.VUndefined =>
                    Runtime.of_element (std versionMeta !! 0%nat)
                | value => value
                end) as Hversioned.
  { intros [|c s] Hne; [done|]. by repeat split. }
  unfold Route.interpret. cbn [Route.version]. unfold Js.or_else.
  destruct (parse (default "" (head (default [] rest)))).2 as [[|c s]|];
    cbn [Js.truthy].
  - exists latest. auto.
  - exists (String c s). auto.
  - exists latest. auto.
Qed.

Lemma C10_version_never_empty_witness :
  cli Sample.versionMeta !! 0%nat = Some "v1.21.0" ∧ "v1.21.0" ≠ ""
  ∧ ∃ v,
      Route.version
        (Route.interpret parseNameVersion Sample.versionMeta (Some ["manual@"]))
      = Some v
      ∧ v ≠ "".
Proof.
  split; [reflexivity|]. split; [discriminate|].
  destruct (C10_version_never_empty parseNameVersion Sample.versionMeta
              (Some ["manual@"]) "v1.21.0" eq_refl ltac:(discriminate))
    as (v & Hv & Hne & _).
  exists v. split; [exact Hv | exact Hne].
Defined.

(** ** The placeholder substitution *)

Section SubstitutionFacts.

Lemma GetSubstitution_plain (matched before after replacement : string) :
  Spec.plain replacement = true →
  Js.GetSubstitution matched before after replacement = replacement.
Proof.
  induction replacement as [|c r IH]; intros Hr; [done|].
  cbn [Spec.plain] in Hr. apply andb_true_iff in Hr as [Hc Hr].
  apply negb_true_iff in Hc. cbn [Js.GetSubstitution].
  rewrite Hc. by rewrite IH.
Qed.

(** A replacement text without dollar sign is inserted as it stands. *)
Lemma replace_scan_plain (tok replacement : string) :
  Spec.plain replacement = true →
  ∀ s before skip,
    Js.replace_scan tok replacement before skip s
    = Spec.substitute_scan tok replacement skip s.
Proof.
  intros Hr. induction s as [|c s IH]; intros before skip; [done|].
  cbn [Js.replace_scan Spec.substitute_scan].
  destruct skip as [|k]; [|apply IH].
  destruct (String.prefix tok (String c s)).
  - by rewrite GetSubstitution_plain, IH.
  - by rewrite IH.
Qed.

Lemma replaceAll_plain (tok replacement input : string) :
  Spec.plain replacement = true →
  Js.replaceAll tok replacement input
  = Spec.substitute_all tok replacement input.
Proof. intros Hr. by apply replace_scan_plain. Qed.

(** The source shown for versions without dollar sign: both tokens are
    replaced by the versions themselves, the std token first. *)
Lemma markdown_source_plain (versionMeta : VersionMeta)
    (v sv content : string) :
  stdVersion versionMeta (Some v) = Runtime.VString sv →
  Spec.plain v = true → Spec.plain sv = true →
  markdown_source versionMeta (Some v) content
  = Runtime.Returned
      (Spec.substitute_all "$CLI_VERSION" v
         (Spec.substitute_all "$STD_VERSION" sv content)).
Proof.
  intros Hsv Hv Hs. unfold markdown_source. rewrite Hsv.
  cbn [Runtime.replace_by to_replacement default from_option id].
  by rewrite !replaceAll_plain.
Qed.

(** The not-found text holds no placeholder: it is shown as it is. *)
Lemma markdown_source_not_found (versionMeta : VersionMeta)
    (version : option string) :
  markdown_source versionMeta version Loader.not_found
  = Runtime.Returned Loader.not_found.
Proof.
  unfold markdown_source.
  destruct (stdVersion versionMeta version) as [s|[call|text]|];
    vm_compute; reflexivity.
Qed.

End SubstitutionFacts.

(** ** Claims about the content loader *)

(** C3: when the content request answers with a status other than 200, or
    fails altogether, the content becomes the fixed not-found text,
    whatever the body of the response, and that text is what the page
    shows. *)
Theorem C3_failed_fetch_shows_not_found (versionMeta : VersionMeta)
    (rest : option (list string)) (st : PageState)
    (res : Loader.Response) (e : Loader.Error)
    (Hstatus : Loader.status res ≠ 200)
    (Hpath : Js.endsWith (Route.path (route versionMeta rest)) ".md" = false) :
  Loader.not_found
  = "# 404 - Not Found" +:+ String "010"%char
      "Whoops, the page does not seem to exist."
  ∧ content (Effects.content_effect (Loader.Fulfilled res) st).1
    = Some Loader.not_found
  ∧ content (Effects.content_effect (Loader.Rejected e) st).1
    = Some Loader.not_found
  ∧ ∀ st', content st' = Some Loader.not_found →
      ∃ view effects art,
        Manual versionMeta rest st' = Page view effects
        ∧ article view = Some art
        ∧ source art = Loader.not_found.
Proof.
  split; [reflexivity|]. split; [|split; [reflexivity|]].
  - unfold Effects.content_effect, Effects.content_effect_settle,
      Loader.settled_content, Loader.then_, Loader.check_status.
    by rewrite decide_True by done.
  - intros st' Hc. unfold Manual. rewrite Hpath, Hc.
    change (Js.truthy Loader.not_found) with true. cbn iota.
    rewrite markdown_source_not_found.
    eexists _, _, _. split; [reflexivity|]. cbn [article].
    split; reflexivity.
Qed.

Lemma C3_failed_fetch_shows_not_found_witness :
  let res := {| Loader.status := 500;
                Loader.text := Loader.Fulfilled "Internal Server Error" |} in
  Loader.status res ≠ 200
  ∧ Js.endsWith
      (Route.path (route Sample.versionMeta (Some ["manual"; "intro"]))) ".md"
    = false
  ∧ content (Effects.content_effect (Loader.Fulfilled res) initial_state).1
    = Some Loader.not_found.
Proof.
  intros res. split; [discriminate|]. split; [reflexivity|].
  exact (proj1 (proj2
    (C3_failed_fetch_shows_not_found Sample.versionMeta
       (Some ["manual"; "intro"]) initial_state res Loader.NetworkError
       ltac:(discriminate) eq_refl))).
Defined.

(** ** Claims about navigation *)

(** C6: when the resolved path is [stem.md], the render pass is a redirect
    to [/manual], the version suffix and [stem]; it returns no view and
    declares no effect, the content fetch included. *)
Theorem C6_md_path_redirects (versionMeta : VersionMeta)
    (rest : option (list string)) (st : PageState) (stem : string)
    (Hmd : Route.path (route versionMeta rest) = stem +:+ ".md") :
  Manual versionMeta rest st
  = Redirected
      (Replace "/[...rest]"
         ("/manual"
          +:+ version_suffix (Route.version (route versionMeta rest))
          +:+ stem))
  ∧ view_of (Manual versionMeta rest st) = None
  ∧ effects_of (Manual versionMeta rest st) = [].
Proof.
  assert (Manual versionMeta rest st
          = Redirected
              (Replace "/[...rest]"
                 ("/manual"
                  +:+ version_suffix (Route.version (route versionMeta rest))
                  +:+ stem))) as Hr.
  { unfold Manual. rewrite Hmd, endsWith_append. unfold md_redirect.
    by rewrite version_suffix_md, replace_md_suffix_append. }
  split; [exact Hr|]. by rewrite Hr.
Qed.

Lemma C6_md_path_redirects_witness :
  Route.path (route Sample.versionMeta (Some ["manual@v1.20.0"; "tools.md"]))
  = "/tools" +:+ ".md"
  ∧ Manual Sample.versionMeta (Some ["manual@v1.20.0"; "tools.md"])
      initial_state
    = Redirected (Replace "/[...rest]" "/manual@v1.20.0/tools").
Proof.
  split; [reflexivity|].
  exact (proj1
    (C6_md_path_redirects Sample.versionMeta
       (Some ["manual@v1.20.0"; "tools.md"]) initial_state "/tools" eq_refl)).
Defined.

(** C7, at an input where the code departs from it: for the route
    [manual@$&/introduction] the version is [$&], and the content
    [Deno $CLI_VERSION] is shown unchanged, where replacing the token by the
    version would give [Deno $&]. *)
Theorem C7_dollar_pattern_in_version :
  let r := route Sample.versionMeta (Some ["manual@$&"; "introduction"]) in
  Route.version r = Some "$&"
  ∧ markdown_source Sample.versionMeta (Route.version r) "Deno $CLI_VERSION"
    = Runtime.Returned "Deno $CLI_VERSION"
  ∧ Spec.substitute_all "$CLI_VERSION" "$&" "Deno $CLI_VERSION" = "Deno $&".
Proof. repeat split; vm_compute; reflexivity. Qed.

(** C8: choosing the version [v] in the switcher navigates to [/manual@v]
    followed by the current path when [v] is not empty, and to [/manual]
    followed by the path when it is empty; for [/introduction] these are
    [/manual@v/introduction] and [/manual/introduction]. *)
Theorem C8_gotoVersion_target (path v : string) (Hv : v ≠ "") :
  gotoVersion path v = Push "/[...rest]" ("/manual@" +:+ v +:+ path)
  ∧ gotoVersion path "" = Push "/[...rest]" ("/manual" +:+ path)
  ∧ gotoVersion "/introduction" v
    = Push "/[...rest]" ("/manual@" +:+ v +:+ "/introduction")
  ∧ gotoVersion "/introduction" ""
    = Push "/[...rest]" "/manual/introduction".
Proof.
  assert (∀ p, gotoVersion p v = Push "/[...rest]" ("/manual@" +:+ v +:+ p))
    as Hgo.
  { intros p. unfold gotoVersion.
    apply String.eqb_neq in Hv as ->. cbn [negb].
    by rewrite <- !append_assoc. }
  by rewrite !Hgo.
Qed.

Lemma C8_gotoVersion_target_witness :
  "v1.20.0" ≠ ""
  ∧ gotoVersion "/introduction" "v1.20.0"
    = Push "/[...rest]" "/manual@v1.20.0/introduction".
Proof.
  split; [discriminate|].
  exact (proj1 (C8_gotoVersion_target "/introduction" "v1.20.0"
                  ltac:(discriminate))).
Defined.

(** ** Claims about the search overlay *)

(** C9: a keypress of [/] or [s] opens the overlay when it is closed, with
    the default action prevented and the focus request scheduled; when the
    overlay is open the state is unchanged and nothing else happens. *)
Theorem C9_keypress_opens_once (key : string) (st : PageState)
    (Hkey : key = "/" ∨ key = "s") :
  Search.onPress key st
  = (if isOpen st then (st, [])
     else (setIsOpen true st,
           [Search.PreventDefault; Search.FocusSearchInput]))
  ∧ isOpen (Search.onPress key st).1 = true
  ∧ Search.onPress key (Search.onPress key st).1
    = ((Search.onPress key st).1, []).
Proof.
  assert (String.eqb key "/" || String.eqb key "s" = true) as Hk.
  { by destruct Hkey as [-> | ->]. }
  unfold Search.onPress. rewrite Hk.
  destruct (isOpen st) eqn:Ho; cbn [negb Search.onOpen fst isOpen setIsOpen].
  - by rewrite Ho.
  - done.
Qed.

Lemma C9_keypress_opens_once_witness :
  ("/" = "/" ∨ "/" = "s")
  ∧ Search.onPress "/" initial_state
    = (setIsOpen true initial_state,
       [Search.PreventDefault; Search.FocusSearchInput]).
Proof.
  split; [by left|].
  exact (proj1 (C9_keypress_opens_once "/" initial_state (or_introl eq_refl))).
Defined.

(** * Further properties of the page *)

(** ** More on strings *)

Section MoreStringFacts.

Lemma prefix_append (p rest : string) : String.prefix p (p +:+ rest) = true.
Proof.
  induction p as [|c p IH]; [by destruct rest|].
  rewrite append_cons. cbn [String.prefix].
  destruct (ascii_dec c c) as [_|Hne]; [exact IH | by destruct Hne].
Qed.

Lemma prefix_head_mismatch (a c : ascii) (t s : string) :
  a ≠ c → String.prefix (String a t) (String c s) = false.
Proof.
  intros Hne. cbn [String.prefix]. by destruct (ascii_dec a c).
Qed.

Lemma drop_chars_append (p rest : string) :
  Js.drop_chars (String.length p) (p +:+ rest) = rest.
Proof. induction p as [|c p IH]; [by destruct rest | exact IH]. Qed.

Lemma plain_append (a b : string) :
  Spec.plain (a +:+ b) = Spec.plain a && Spec.plain b.
Proof.
  induction a as [|c a IH]; [done|].
  rewrite append_cons. cbn [Spec.plain]. rewrite IH. by rewrite andb_assoc.
Qed.

Lemma append_inj_l (p a b : string) : p +:+ a = p +:+ b → a = b.
Proof.
  induction p as [|c p IH]; [done|].
  rewrite !append_cons. intros [= H]. by apply IH.
Qed.

Lemma eqb_append_l (p a b : string) :
  String.eqb (p +:+ a) (p +:+ b) = String.eqb a b.
Proof.
  destruct (String.eqb_spec a b) as [->|Hne].
  - apply String.eqb_refl.
  - apply String.eqb_neq. intros H. by apply Hne, (append_inj_l p).
Qed.

(** [replace(/\.md$/, "")] takes away a final [.md] and nothing else. *)
Lemma replace_md_suffix_spec (s : string) :
  Js.replace_md_suffix s +:+ (if Js.endsWith s ".md" then ".md" else "") = s.
Proof.
  destruct (Js.endsWith s ".md") eqn:He.
  - apply endsWith_inv in He as [stem ->].
    by rewrite replace_md_suffix_append.
  - rewrite replace_md_suffix_other by done. apply append_nil_r.
Qed.

End MoreStringFacts.

(** ** More on routes and redirects *)

Section RouteFacts.

(** X1: the resolved path always starts with a slash, whatever the segments,
    the parser and the manifest; in particular it is never empty. *)
Theorem path_starts_with_slash (parse : string → string * option string)
    (versionMeta : VersionMeta) (rest : option (list string)) :
  ∃ q, Route.path (Route.interpret parse versionMeta rest) = "/" +:+ q.
Proof.
  unfold Route.interpret. cbn [Route.path].
  destruct (tail (default [] rest)) as [|p parts].
  - by exists "introduction".
  - rewrite decide_False by done. by eexists.
Qed.

Lemma join_last_append (sep a b : string) (init : list string) :
  Js.join sep (init ++ [a +:+ b]) = Js.join sep (init ++ [a]) +:+ b.
Proof.
  induction init as [|x init IH]; [done|].
  destruct init as [|y init].
  - cbn [app Js.join]. by rewrite !append_assoc.
  - change ((x :: y :: init) ++ [a +:+ b])
      with (x :: ((y :: init) ++ [a +:+ b])).
    change ((x :: y :: init) ++ [a]) with (x :: ((y :: init) ++ [a])).
    change (Js.join sep (x :: ((y :: init) ++ [a +:+ b])))
      with (x +:+ sep +:+ Js.join sep ((y :: init) ++ [a +:+ b])).
    change (Js.join sep (x :: ((y :: init) ++ [a])))
      with (x +:+ sep +:+ Js.join sep ((y :: init) ++ [a])).
    rewrite IH. by rewrite !append_assoc.
Qed.

(** X2: when the last segment is [x.md], the redirect goes to the same
    segments with the last one turned into [x]; the segments before it are
    kept as they are, even those that end in [.md]. *)
Theorem redirect_changes_last_segment_only (versionMeta : VersionMeta)
    (identifier x : string) (init : list string) (st : PageState) :
  let rest := Some (identifier :: init ++ [x +:+ ".md"]) in
  Manual versionMeta rest st
  = Redirected
      (Replace "/[...rest]"
         ("/manual"
          +:+ version_suffix (Route.version (route versionMeta rest))
          +:+ "/" +:+ Js.join "/" (init ++ [x]))).
Proof.
  intros rest.
  assert (Route.path (route versionMeta rest)
          = ("/" +:+ Js.join "/" (init ++ [x])) +:+ ".md") as Hp.
  { unfold route, Route.interpret. cbn [Route.path].
    subst rest. cbn [default from_option id tail].
    rewrite decide_False by (by destruct init).
    rewrite join_last_append. by rewrite append_assoc. }
  unfold Manual. rewrite Hp, endsWith_append. unfold md_redirect.
  by rewrite version_suffix_md, replace_md_suffix_append.
Qed.

End RouteFacts.

(** ** More on the page list, its links and the sidebar *)

Section ListFacts.

Lemma flatten_flat_map (toc : Toc.TableOfContents) :
  PageList.flatten toc = flat_map Spec.pages_of toc.
Proof. unfold PageList.flatten. by rewrite fold_visit. Qed.

(** X3: the page list has one entry per slug and one per child, so it is
    empty only for an empty table of contents. *)
Theorem flatten_length (toc : Toc.TableOfContents) :
  length (PageList.flatten toc)
  = sum_list
      (map (λ item, S (length (default [] (Toc.children item.2)))) toc)
  ∧ (PageList.flatten toc = [] ↔ toc = []).
Proof.
  rewrite flatten_flat_map. split.
  - induction toc as [|[slug entry] toc IH]; [done|].
    cbn [flat_map map sum_list]. rewrite length_app, IH.
    unfold Spec.pages_of. cbn [length fst snd]. by rewrite length_map.
  - destruct toc as [|[slug entry] toc]; [done|].
    split; intros H; discriminate H.
Qed.

Lemma findIndex_from_map {A} (p : A → bool) (k : Z) (arr : list A) :
  Js.findIndex_from p k arr = Js.findIndex_from id k (map p arr).
Proof.
  revert k. induction arr as [|x arr IH]; intros k; [done|].
  cbn [map Js.findIndex_from id]. unfold id at 1. by rewrite IH.
Qed.

Lemma sidebar_item (version : option string) (path : string)
    (item : string * Toc.Entry) :
  let anchors := Sidebar.anchors (Sidebar.ToC [item] version path) in
  map Sidebar.label anchors = map PageList.name (Spec.pages_of item)
  ∧ map Sidebar.active anchors
    = map (λ page, String.eqb (PageList.path page) ("/manual" +:+ path))
        (Spec.pages_of item)
  ∧ map Sidebar.href anchors
    = map (λ page, "/manual" +:+ version_suffix version
                   +:+ Js.drop_chars 7 (PageList.path page))
        (Spec.pages_of item).
Proof.
  destruct item as [slug [name kids]].
  cbn [Sidebar.anchors Sidebar.ToC map flat_map Sidebar.anchor Sidebar.nested
       Toc.children Toc.name Spec.pages_of].
  rewrite !app_nil_r. cbn [map Sidebar.label Sidebar.active Sidebar.href
                               PageList.name PageList.path].
  assert (∀ q, String.eqb path q = String.eqb ("/manual" +:+ q)
                                      ("/manual" +:+ path)) as Heq.
  { intros q. by rewrite eqb_append_l, String.eqb_sym. }
  destruct kids as [kids|]; cbn [default from_option id map].
  - repeat split; f_equal; try apply Heq.
    + induction kids as [|[c m] kids IH]; [done|]. cbn [map]. by rewrite IH.
    + induction kids as [|[c m] kids IH]; [done|]. cbn [map].
      rewrite IH. f_equal. apply Heq.
    + induction kids as [|[c m] kids IH]; [done|]. cbn [map]. by rewrite IH.
  - repeat split; f_equal; apply Heq.
Qed.

Lemma sidebar_cons (item : string * Toc.Entry) (toc : Toc.TableOfContents)
    (version : option string) (path : string) :
  Sidebar.anchors (Sidebar.ToC (item :: toc) version path)
  = Sidebar.anchors (Sidebar.ToC [item] version path)
    ++ Sidebar.anchors (Sidebar.ToC toc version path).
Proof.
  unfold Sidebar.anchors, Sidebar.ToC. cbn [map flat_map].
  by rewrite app_nil_r.
Qed.

Lemma sidebar_maps (version : option string) (path : string)
    (toc : Toc.TableOfContents) :
  let anchors := Sidebar.anchors (Sidebar.ToC toc version path) in
  map Sidebar.label anchors = map PageList.name (PageList.flatten toc)
  ∧ map Sidebar.active anchors
    = map (λ page, String.eqb (PageList.path page) ("/manual" +:+ path))
        (PageList.flatten toc)
  ∧ map Sidebar.href anchors
    = map (λ page, "/manual" +:+ version_suffix version
                   +:+ Js.drop_chars 7 (PageList.path page))
        (PageList.flatten toc).
Proof.
  cbn zeta. rewrite flatten_flat_map.
  induction toc as [|item toc (IH1 & IH2 & IH3)]; [done|].
  rewrite sidebar_cons. cbn [flat_map]. rewrite !map_app.
  destruct (sidebar_item version path item) as (H1 & H2 & H3).
  cbn zeta in H1, H2, H3. by rewrite H1, H2, H3, IH1, IH2, IH3.
Qed.

(** X4: the sidebar shows the pages of the page list in the same order and
    under the same names, and the first anchor it highlights stands at the
    position the page index holds ([-1] when it highlights none). *)
Theorem sidebar_follows_page_list (version : option string) (path : string)
    (toc : Toc.TableOfContents) :
  let anchors := Sidebar.anchors (Sidebar.ToC toc version path) in
  map Sidebar.label anchors = map PageList.name (PageList.flatten toc)
  ∧ Js.findIndex Sidebar.active anchors
    = PageList.indexOf (PageList.flatten toc) path.
Proof.
  destruct (sidebar_maps version path toc) as (H1 & H2 & _).
  cbn zeta in *. split; [exact H1|].
  unfold PageList.indexOf, Js.findIndex.
  rewrite findIndex_from_map, H2. by rewrite <- findIndex_from_map.
Qed.

End ListFacts.

(** ** Previous and next links *)

Section LinkFacts.

Lemma replace_first_scan_unfold (pattern replacement before s : string) :
  Links.replace_first_scan pattern replacement before s
  = if String.prefix pattern s then
      Js.GetSubstitution pattern before
        (Js.drop_chars (String.length pattern) s) replacement
      +:+ Js.drop_chars (String.length pattern) s
    else
      match s with
      | EmptyString => ""
      | String c s' =>
          String c
            (Links.replace_first_scan pattern replacement
               (before +:+ String c "") s')
      end.
Proof. by destruct s. Qed.

Lemma replace_first_scan_here (pattern replacement before rest : string) :
  Spec.plain replacement = true →
  Links.replace_first_scan pattern replacement before (pattern +:+ rest)
  = replacement +:+ rest.
Proof.
  intros Hr. rewrite replace_first_scan_unfold.
  by rewrite prefix_append, drop_chars_append, GetSubstitution_plain.
Qed.

Lemma link_href_listed (v q : string) (name : string) :
  Spec.plain v = true → v ≠ "" →
  Links.link_href (Some v)
    {| PageList.path := "/manual" +:+ q; PageList.name := name |}
  = "/manual@" +:+ v +:+ q.
Proof.
  intros Hv Hne. unfold Links.link_href. cbn [PageList.path].
  destruct v as [|c v]; [done|]. cbn [Js.truthy].
  unfold Links.replace_first.
  change ("/manual" +:+ q) with (String "/" ("manual" +:+ q)).
  rewrite replace_first_scan_unfold.
  rewrite prefix_head_mismatch by done.
  rewrite replace_first_scan_here; [done|].
  by rewrite plain_append.
Qed.

Lemma pages_of_paths (item : string * Toc.Entry) :
  Forall (λ page, ∃ q, PageList.path page = "/manual/" +:+ q)
    (Spec.pages_of item).
Proof.
  destruct item as [slug [name kids]]. unfold Spec.pages_of.
  cbn [Toc.children Toc.name]. constructor.
  - by eexists.
  - induction (default [] kids) as [|[c m] l IH]; constructor; [|exact IH].
    by eexists.
Qed.

Lemma flatten_paths (toc : Toc.TableOfContents) :
  Forall (λ page, ∃ q, PageList.path page = "/manual/" +:+ q)
    (PageList.flatten toc).
Proof.
  rewrite flatten_flat_map. induction toc as [|item toc IH]; [constructor|].
  cbn [flat_map]. apply Forall_app. split; [apply pages_of_paths | exact IH].
Qed.

Lemma map_ext_Forall {A B} (f g : A → B) (l : list A) :
  Forall (λ x, f x = g x) l → map f l = map g l.
Proof. induction 1 as [|x l Hx _ IH]; [done|]. cbn [map]. by rewrite Hx, IH. Qed.

(** X5: for a version without dollar sign, the previous and next links of
    the pages of the page list lead to the addresses the sidebar shows for
    the same pages: [/manual@version] followed by the rest of the page's
    path. *)
Theorem link_hrefs_agree_with_sidebar (v path : string)
    (toc : Toc.TableOfContents)
    (Hplain : Spec.plain v = true) (Hv : v ≠ "") :
  map (Links.link_href (Some v)) (PageList.flatten toc)
  = map Sidebar.href (Sidebar.anchors (Sidebar.ToC toc (Some v) path))
  ∧ Forall (λ page, ∃ q, PageList.path page = "/manual/" +:+ q
                         ∧ Links.link_href (Some v) page
                           = "/manual@" +:+ v +:+ "/" +:+ q)
      (PageList.flatten toc).
Proof.
  assert (Forall (λ page, ∃ q, PageList.path page = "/manual/" +:+ q
                              ∧ Links.link_href (Some v) page
                                = "/manual@" +:+ v +:+ "/" +:+ q)
            (PageList.flatten toc)) as Hall.
  { eapply Forall_impl; [apply flatten_paths|].
    intros [p n] [q Hq]. cbn [PageList.path] in Hq. subst p.
    exists q. split; [done|].
    change ("/manual/" +:+ q) with ("/manual" +:+ "/" +:+ q).
    by apply link_href_listed. }
  split; [|exact Hall].
  destruct (sidebar_maps (Some v) path toc) as (_ & _ & ->).
  apply map_ext_Forall. eapply Forall_impl; [exact Hall|].
  intros page (q & Hq & ->). rewrite Hq.
  destruct v as [|c v]; [done|]. reflexivity.
Qed.

Lemma link_hrefs_agree_with_sidebar_witness :
  Spec.plain "v1.20.0" = true ∧ "v1.20.0" ≠ ""
  ∧ map (Links.link_href (Some "v1.20.0")) (PageList.flatten Sample.toc)
    = map Sidebar.href
        (Sidebar.anchors (Sidebar.ToC Sample.toc (Some "v1.20.0") "/a/x")).
Proof.
  split; [reflexivity|]. split; [discriminate|].
  exact (proj1 (link_hrefs_agree_with_sidebar "v1.20.0" "/a/x" Sample.toc
                  eq_refl ltac:(discriminate))).
Defined.

End LinkFacts.

(** ** Position of the current page *)

Section IndexFacts.

Lemma findIndex_from_first {A} (p : A → bool) (arr : list A) (n : nat)
    (x : A) (k : Z) :
  arr !! n = Some x → p x = true →
  (∀ j y, (j < n)%nat → arr !! j = Some y → p y = false) →
  Js.findIndex_from p k arr = k + Z.of_nat n.
Proof.
  revert n k. induction arr as [|a arr IH]; intros n k Hn Hx Hbefore.
  - by destruct n.
  - destruct n as [|n]; cbn [Js.findIndex_from].
    + injection Hn as ->. rewrite Hx. lia.
    + rewrite (Hbefore 0%nat a) by (done || lia).
      rewrite (IH n (k + 1)); [lia | exact Hn | exact Hx |].
      intros j y Hj Hy. apply (Hbefore (S j) y); [lia | exact Hy].
Qed.

Lemma findIndex_from_hit {A} (p : A → bool) (arr : list A) (k : Z) :
  Js.findIndex_from p k arr ≠ -1 → 0 ≤ k →
  ∃ (n : nat) (x : A),
    Js.findIndex_from p k arr = k + Z.of_nat n
    ∧ arr !! n = Some x ∧ p x = true
    ∧ ∀ j y, (j < n)%nat → arr !! j = Some y → p y = false.
Proof.
  revert k. induction arr as [|a arr IH]; intros k Hr Hk; [done|].
  cbn [Js.findIndex_from] in *. destruct (p a) eqn:Ha.
  - exists 0%nat, a. repeat split; [lia | done |]. intros j y Hj. lia.
  - destruct (IH (k + 1) Hr) as (n & x & Hn & Hx & Hp & Hbefore); [lia|].
    exists (S n), x. repeat split; [lia | done | done |].
    intros [|j] y Hj Hy; [by injection Hy as <-|].
    apply (Hbefore j y); [lia | exact Hy].
Qed.

(** X6: once the page-list effect has run on a loaded table of contents,
    the page index is either [-1], and then no page of the list has the
    current path, or the position of the first page of the list whose path
    is [/manual] followed by the current path. *)
Theorem page_index_points_at_current_page (path : string) (st : PageState)
    (toc : Toc.TableOfContents)
    (Htoc : tableOfContents st = Some toc) :
  let st' := Effects.pageList_effect path st in
  pageList st' = PageList.flatten toc
  ∧ ((pageIndex st' = -1
      ∧ Forall (λ page, PageList.path page ≠ "/manual" +:+ path)
          (pageList st'))
     ∨ ∃ (n : nat) (page : PageList.Entry),
         pageIndex st' = Z.of_nat n
         ∧ pageList st' !! n = Some page
         ∧ PageList.path page = "/manual" +:+ path
         ∧ ∀ j other, (j < n)%nat → pageList st' !! j = Some other →
             PageList.path other ≠ "/manual" +:+ path).
Proof.
  intros st'. subst st'. unfold Effects.pageList_effect. rewrite Htoc.
  cbn [pageList pageIndex setPageIndex setPageList]. split; [done|].
  unfold PageList.indexOf, Js.findIndex.
  set (p := λ page : PageList.Entry,
              String.eqb (PageList.path page) ("/manual" +:+ path)).
  destruct (decide (Js.findIndex_from p 0 (PageList.flatten toc) = -1))
    as [Hmiss|Hhit].
  - left. split; [exact Hmiss|].
    apply findIndex_from_not_found in Hmiss; [|lia].
    eapply Forall_impl; [exact Hmiss|]. intros page Hp.
    by apply String.eqb_neq.
  - right.
    destruct (findIndex_from_hit p _ 0 Hhit) as (n & x & Hn & Hx & Hp & Hb);
      [lia|].
    exists n, x. repeat split; [lia | done | by apply String.eqb_eq |].
    intros j other Hj Ho. by apply String.eqb_neq, (Hb j).
Qed.

Lemma page_index_points_at_current_page_witness :
  let st := setTableOfContents (Some Sample.toc) initial_state in
  tableOfContents st = Some Sample.toc
  ∧ pageList (Effects.pageList_effect "/a/x" st) = PageList.flatten Sample.toc.
Proof.
  intros st. split; [reflexivity|].
  exact (proj1 (page_index_points_at_current_page "/a/x" st Sample.toc
                  eq_refl)).
Defined.

End IndexFacts.

(** ** Distinct paths *)

Section UniquePaths.

Lemma no_slash_append (a b : string) :
  Slugs.no_slash (a +:+ b) = Slugs.no_slash a && Slugs.no_slash b.
Proof.
  induction a as [|c a IH]; [done|].
  rewrite append_cons. cbn [Slugs.no_slash]. rewrite IH.
  by rewrite andb_assoc.
Qed.

Lemma no_slash_not_compound (s s' c : string) :
  Slugs.no_slash s = true → s ≠ s' +:+ "/" +:+ c.
Proof.
  intros Hs ->. rewrite no_slash_append in Hs.
  apply andb_true_iff in Hs as [_ Hs]. discriminate Hs.
Qed.

Lemma slash_split (s s' c c' : string) :
  Slugs.no_slash s = true → Slugs.no_slash s' = true →
  s +:+ "/" +:+ c = s' +:+ "/" +:+ c' → s = s' ∧ c = c'.
Proof.
  revert s'. induction s as [|x s IH]; intros [|y s'] Hs Hs'.
  - intros H. split; [done|]. by apply (append_inj_l "/").
  - rewrite append_cons. intros [= <- _]. discriminate Hs'.
  - rewrite append_cons. intros [= -> _]. discriminate Hs.
  - rewrite !append_cons. intros [= <- H].
    cbn [Slugs.no_slash] in Hs, Hs'.
    apply andb_true_iff in Hs as [_ Hs]. apply andb_true_iff in Hs' as [_ Hs'].
    destruct (IH s' Hs Hs' H) as [-> ->]. done.
Qed.

Lemma elem_of_flat_map {A B} (f : A → list B) (l : list A) (y : B) :
  y ∈ flat_map f l → ∃ x, x ∈ l ∧ y ∈ f x.
Proof.
  induction l as [|a l IH]; cbn [flat_map]; intros H.
  - by apply elem_of_nil in H.
  - apply elem_of_app in H as [H|H].
    + exists a. split; [apply elem_of_cons; by left | exact H].
    + destruct (IH H) as (x & Hx & Hy). exists x.
      split; [apply elem_of_cons; by right | exact Hy].
Qed.

Lemma pages_of_path_inv (item : string * Toc.Entry) (p : string) :
  p ∈ map PageList.path (Spec.pages_of item) →
  p = "/manual/" +:+ item.1
  ∨ ∃ c, c ∈ map fst (default [] (Toc.children item.2))
         ∧ p = "/manual/" +:+ item.1 +:+ "/" +:+ c.
Proof.
  destruct item as [slug [name kids]]. unfold Spec.pages_of.
  cbn [Toc.children Toc.name fst snd map PageList.path]. intros H.
  apply elem_of_cons in H as [H|H]; [by left|]. right.
  induction (default [] kids) as [|[c m] l IH]; cbn [map] in *.
  - by apply elem_of_nil in H.
  - apply elem_of_cons in H as [H|H].
    + exists c. split; [apply elem_of_cons; by left | exact H].
    + destruct (IH H) as (c' & Hc' & Hp). exists c'.
      split; [apply elem_of_cons; by right | exact Hp].
Qed.

Lemma pages_of_NoDup (item : string * Toc.Entry) :
  Slugs.no_slash item.1 = true →
  NoDup (map fst (default [] (Toc.children item.2))) →
  NoDup (map PageList.path (Spec.pages_of item)).
Proof.
  destruct item as [slug [name kids]].
  cbn [Spec.pages_of Toc.children Toc.name fst snd map PageList.path].
  intros Hs Hkids. apply NoDup_cons. split.
  - intros Hin.
    induction (default [] kids) as [|[c m] l IH]; cbn [map] in *.
    + by apply elem_of_nil in Hin.
    + apply NoDup_cons in Hkids as [_ Hkids].
      apply elem_of_cons in Hin as [Hin|Hin]; [|by apply IH].
      cbn [PageList.path] in Hin. apply (append_inj_l "/manual/") in Hin.
      by apply no_slash_not_compound in Hin.
  - induction (default [] kids) as [|[c m] l IH]; cbn [map] in *.
    + by apply NoDup_nil.
    + apply NoDup_cons in Hkids as [Hc Hkids]. apply NoDup_cons.
      split; [|by apply IH]. intros Hin. apply Hc. clear IH Hkids Hc.
      induction l as [|[c' m'] l IH]; cbn [map] in *.
      * by apply elem_of_nil in Hin.
      * apply elem_of_cons in Hin as [Hin|Hin].
        -- cbn [PageList.path] in Hin.
           apply (append_inj_l "/manual/"), append_inj_l in Hin.
           apply (append_inj_l "/") in Hin. subst c'.
           apply elem_of_cons. by left.
        -- apply elem_of_cons. right. by apply IH.
Qed.

Lemma flatten_paths_NoDup (toc : Toc.TableOfContents) :
  Slugs.well_formed toc → NoDup (map PageList.path (PageList.flatten toc)).
Proof.
  intros Hwf. rewrite flatten_flat_map. destruct Hwf as [Hnd Hall].
  induction toc as [|item toc IH]; [by apply NoDup_nil|].
  cbn [map] in Hnd. apply NoDup_cons in Hnd as [Hfresh Hnd].
  apply Forall_cons_1 in Hall as [[Hs Hkids] Hall].
  cbn [flat_map]. rewrite map_app. apply NoDup_app.
  split; [by apply pages_of_NoDup|]. split; [|by apply IH].
  intros p Hp Hp'. change (p ∈ PageList.path <$> flat_map Spec.pages_of toc)
    in Hp'.
  apply list_elem_of_fmap in Hp' as (page & -> & Hpage).
  apply elem_of_flat_map in Hpage as (other & Hother & Hpage).
  assert (PageList.path page ∈ map PageList.path (Spec.pages_of other))
    as Hpage'.
  { change (PageList.path page ∈ PageList.path <$> Spec.pages_of other).
    apply list_elem_of_fmap. by exists page. }
  assert (item.1 ≠ other.1) as Hne.
  { intros Heq. apply Hfresh. rewrite Heq.
    change (other.1 ∈ fst <$> toc). apply list_elem_of_fmap. by exists other. }
  assert (Slugs.no_slash other.1 = true) as Hs'.
  { apply (proj1 (Forall_forall _ _) Hall other Hother). }
  apply pages_of_path_inv in Hp as [Hp|(c & _ & Hp)];
    apply pages_of_path_inv in Hpage' as [Hq|(c' & _ & Hq)];
    rewrite Hp in Hq; apply (append_inj_l "/manual/") in Hq.
  - by apply Hne.
  - by apply no_slash_not_compound in Hq.
  - symmetry in Hq. by apply no_slash_not_compound in Hq.
  - apply slash_split in Hq as [Hq _]; [by apply Hne | done | done].
Qed.

(** X7: when slugs are unique at each level and no top-level slug holds a
    slash, no two pages of the page list have the same path. *)
Theorem page_paths_unique (toc : Toc.TableOfContents)
    (Hwf : Slugs.well_formed toc) :
  NoDup (map PageList.path (PageList.flatten toc)).
Proof. by apply flatten_paths_NoDup. Qed.

Lemma sample_toc_well_formed : Slugs.well_formed Sample.toc.
Proof.
  split.
  - by apply (bool_decide_unpack _).
  - repeat constructor; by apply (bool_decide_unpack _).
Qed.

Lemma page_paths_unique_witness :
  Slugs.well_formed Sample.toc
  ∧ NoDup (map PageList.path (PageList.flatten Sample.toc)).
Proof.
  split; [exact sample_toc_well_formed|].
  exact (page_paths_unique Sample.toc sample_toc_well_formed).
Defined.

End UniquePaths.

(** ** Neighbours in the page list *)

Section Neighbours.

Lemma array_get_nat {A} (arr : list A) (n : nat) :
  Js.array_get arr (Z.of_nat n) = arr !! n.
Proof.
  unfold Js.array_get. destruct (Z.ltb_spec (Z.of_nat n) 0) as [?|_]; [lia|].
  by rewrite Nat2Z.id.
Qed.

Lemma index_of_listed_page (toc : Toc.TableOfContents) (n : nat)
    (page : PageList.Entry) (q : string) :
  Slugs.well_formed toc →
  PageList.flatten toc !! n = Some page →
  PageList.path page = "/manual" +:+ q →
  PageList.indexOf (PageList.flatten toc) q = Z.of_nat n.
Proof.
  intros Hwf Hn Hq. pose proof (flatten_paths_NoDup toc Hwf) as Hnd.
  unfold PageList.indexOf, Js.findIndex.
  rewrite (findIndex_from_first _ _ n page 0 Hn); [lia | |].
  - cbn beta. rewrite Hq. apply String.eqb_refl.
  - intros j other Hj Ho. cbn beta. apply String.eqb_neq. intros Heq.
    rewrite <- Hq in Heq.
    assert (j = n); [|lia].
    change (map PageList.path (PageList.flatten toc))
      with (PageList.path <$> PageList.flatten toc) in Hnd.
    apply (NoDup_lookup _ j n (PageList.path page) Hnd).
    + by rewrite list_lookup_fmap, Ho, <- Heq.
    + by rewrite list_lookup_fmap, Hn.
Qed.

(** X8: on a table of contents with unique slugs, for the page at position
    [n] of the page list the page index is [n], the previous link shows the
    page at position [n - 1] (none for the first page) and the next link
    the page at position [n + 1] (none for the last page). *)
Theorem neighbours_of_listed_page (versionMeta : VersionMeta)
    (version : option string) (toc : Toc.TableOfContents) (st : PageState)
    (n : nat) (page : PageList.Entry) (q c : string)
    (Hwf : Slugs.well_formed toc)
    (Htoc : tableOfContents st = Some toc)
    (Hn : PageList.flatten toc !! n = Some page)
    (Hq : PageList.path page = "/manual" +:+ q) :
  let st' := Effects.pageList_effect q st in
  pageIndex st' = Z.of_nat n
  ∧ prev_link (render_article versionMeta version q st' c)
    = match n with
      | O => None
      | S j => PageList.flatten toc !! j
      end
  ∧ next_link (render_article versionMeta version q st' c)
    = PageList.flatten toc !! S n.
Proof.
  intros st'. subst st'. unfold Effects.pageList_effect. rewrite Htoc.
  cbn [render_article prev_link next_link pageIndex pageList
       setPageIndex setPageList].
  rewrite (index_of_listed_page toc n page q Hwf Hn Hq).
  split; [done|]. split.
  - destruct n as [|j]; [done|].
    replace (Z.of_nat (S j) - 1) with (Z.of_nat j) by lia.
    apply array_get_nat.
  - replace (Z.of_nat n + 1) with (Z.of_nat (S n)) by lia.
    apply array_get_nat.
Qed.

Lemma neighbours_of_listed_page_witness :
  let st := setTableOfContents (Some Sample.toc) initial_state in
  let st' := Effects.pageList_effect "/a/x" st in
  let art :=
    render_article Sample.versionMeta (Some "v1.21.0") "/a/x" st' "text" in
  Slugs.well_formed Sample.toc
  ∧ tableOfContents st = Some Sample.toc
  ∧ PageList.flatten Sample.toc !! 1%nat
    = Some {| PageList.path := "/manual/a/x"; PageList.name := "X" |}
  ∧ pageIndex st' = 1
  ∧ prev_link art = Some {| PageList.path := "/manual/a"; PageList.name := "A" |}
  ∧ next_link art = Some {| PageList.path := "/manual/b"; PageList.name := "B" |}.
Proof.
  split; [exact sample_toc_well_formed|].
  split; [reflexivity|]. split; [reflexivity|].
  exact (neighbours_of_listed_page Sample.versionMeta (Some "v1.21.0")
           Sample.toc (setTableOfContents (Some Sample.toc) initial_state)
           1 {| PageList.path := "/manual/a/x"; PageList.name := "X" |}
           "/a/x" "text" sample_toc_well_formed eq_refl eq_refl eq_refl).
Defined.

End Neighbours.

(** ** More on the content loader *)

Section LoaderFacts.

(** X9: once its request has settled, the content effect never leaves the
    content at [null], and it keeps the table of contents, the page list,
    the page index and the overlay as they were; nothing is logged exactly
    when the request was answered with status 200 and its body could be
    read, and then the content is that body. *)
Theorem content_effect_outcome (fetched : Loader.Promise Loader.Response)
    (st : PageState) :
  let '(st', logs) := Effects.content_effect fetched st in
  (∃ c, content st' = Some c)
  ∧ tableOfContents st' = tableOfContents st
  ∧ pageList st' = pageList st
  ∧ pageIndex st' = pageIndex st
  ∧ isOpen st' = isOpen st
  ∧ (logs = [] ↔
     ∃ res body, fetched = Loader.Fulfilled res ∧ Loader.status res = 200
                 ∧ Loader.text res = Loader.Fulfilled body
                 ∧ content st' = Some body).
Proof.
  unfold Effects.content_effect, Effects.content_effect_settle,
    Loader.settled_content, Loader.then_, Loader.catch_, Loader.check_status.
  destruct fetched as [[status text]|e]; cbn [Loader.status Loader.text].
  - destruct (decide (status ≠ 200)) as [Hne|Heq].
    + refine (conj _ (conj eq_refl (conj eq_refl (conj eq_refl
                (conj eq_refl _))))); [by eexists|].
      split; [intros H; discriminate H|].
      intros (res & body & [= <-] & Hs & _). by destruct Hne.
    + apply dec_stable in Heq. destruct text as [body|e].
      * refine (conj _ (conj eq_refl (conj eq_refl (conj eq_refl
                  (conj eq_refl _))))); [by eexists|].
        split; [|done]. intros _.
        by exists {| Loader.status := status;
                     Loader.text := Loader.Fulfilled body |}, body.
      * refine (conj _ (conj eq_refl (conj eq_refl (conj eq_refl
                  (conj eq_refl _))))); [by eexists|].
        split; [intros H; discriminate H|].
        intros (res & body & [= <-] & _ & Ht & _). discriminate Ht.
  - refine (conj _ (conj eq_refl (conj eq_refl (conj eq_refl
              (conj eq_refl _))))); [by eexists|].
    split; [intros H; discriminate H|].
    intros (res & body & H & _). discriminate H.
Qed.



End LoaderFacts.

(** ** More on the placeholder substitution *)

Section TemplateFacts.

Lemma plain_head (c : ascii) (s : string) :
  Spec.plain (String c s) = true → "$"%char ≠ c ∧ Spec.plain s = true.
Proof.
  cbn [Spec.plain]. intros H. apply andb_true_iff in H as [Hc Hs].
  split; [|exact Hs]. apply negb_true_iff, Ascii.eqb_neq in Hc. congruence.
Qed.

(** A text without dollar sign holds no placeholder: the scan copies it. *)
Lemma replace_scan_plain_input (tok' replacement : string) (s : string) :
  Spec.plain s = true →
  ∀ before,
    Js.replace_scan (String "$" tok') replacement before O s = s.
Proof.
  induction s as [|c s IH]; intros Hs before; [done|].
  apply plain_head in Hs as [Hc Hs]. cbn [Js.replace_scan].
  rewrite prefix_head_mismatch by exact Hc. by rewrite IH.
Qed.

Lemma replace_call_scan_plain_input (tok' : string)
    (call : string → nat → string → Runtime.Outcome) (whole s : string) :
  Spec.plain s = true →
  ∀ position,
    Runtime.replace_call_scan (String "$" tok') call whole position O s
    = Runtime.Returned s.
Proof.
  induction s as [|c s IH]; intros Hs position; [done|].
  apply plain_head in Hs as [Hc Hs]. cbn [Runtime.replace_call_scan].
  rewrite prefix_head_mismatch by exact Hc. by rewrite IH.
Qed.

(** X11: content without dollar sign is shown as it is, whatever the
    version and the manifest, also for versions that hold replacement
    patterns. *)
Theorem plain_content_is_unchanged (versionMeta : VersionMeta)
    (version : option string) (content : string)
    (Hplain : Spec.plain content = true) :
  markdown_source versionMeta version content = Runtime.Returned content.
Proof.
  assert (Runtime.replace_by "$STD_VERSION" (stdVersion versionMeta version)
            content = Runtime.Returned content) as Hstd.
  { unfold Runtime.replace_by, Js.replaceAll.
    destruct (stdVersion versionMeta version) as [s|[call|text]|].
    - by rewrite (replace_scan_plain_input "STD_VERSION" _ content Hplain).
    - apply (replace_call_scan_plain_input "STD_VERSION" _ _ content Hplain).
    - by rewrite (replace_scan_plain_input "STD_VERSION" _ content Hplain).
    - by rewrite (replace_scan_plain_input "STD_VERSION" _ content Hplain). }
  unfold markdown_source. rewrite Hstd. unfold Js.replaceAll.
  by rewrite (replace_scan_plain_input "CLI_VERSION" _ content Hplain).
Qed.

Lemma plain_content_is_unchanged_witness :
  Spec.plain "Deno is a runtime." = true
  ∧ markdown_source Sample.versionMeta (Some "$&") "Deno is a runtime."
    = Runtime.Returned "Deno is a runtime.".
Proof.
  split; [reflexivity|].
  exact (plain_content_is_unchanged Sample.versionMeta (Some "$&")
           "Deno is a runtime." eq_refl).
Defined.

(** Versions named after members of [Object.prototype]: the lookup reads
    the inherited member and the fallback to the first std version is not
    taken.  [constructor] puts the token back, [toString] and [__proto__]
    insert the text of an object, [valueOf] throws once a token is met. *)
Lemma inherited_members_as_std_version :
  markdown_source Sample.versionMeta (Some "constructor") "std@$STD_VERSION"
  = Runtime.Returned "std@$STD_VERSION"
  ∧ markdown_source Sample.versionMeta (Some "toString") "std@$STD_VERSION"
    = Runtime.Returned "std@[object Undefined]"
  ∧ markdown_source Sample.versionMeta (Some "__proto__") "std@$STD_VERSION"
    = Runtime.Returned "std@[object Object]"
  ∧ markdown_source Sample.versionMeta (Some "valueOf") "std@$STD_VERSION"
    = Runtime.Thrown
  ∧ markdown_source Sample.versionMeta (Some "valueOf") "no token"
    = Runtime.Returned "no token"
  ∧ Manual Sample.versionMeta (Some ["manual@valueOf"; "intro"])
      (setContent (Some "std@$STD_VERSION") initial_state)
    = Crashed.
Proof. repeat split; vm_compute; reflexivity. Qed.

Lemma scan_text (tok' replacement p rest : string) :
  Spec.plain p = true →
  Spec.substitute_scan (String "$" tok') replacement O (p +:+ rest)
  = p +:+ Spec.substitute_scan (String "$" tok') replacement O rest.
Proof.
  induction p as [|c p IH]; intros Hp; [done|].
  apply plain_head in Hp as [Hc Hp]. rewrite !append_cons.
  cbn [Spec.substitute_scan].
  rewrite prefix_head_mismatch by exact Hc. by rewrite IH.
Qed.

Lemma scan_skip (tok replacement u rest : string) :
  Spec.substitute_scan tok replacement (String.length u) (u +:+ rest)
  = Spec.substitute_scan tok replacement O rest.
Proof.
  induction u as [|c u IH]; [by destruct rest|].
  rewrite append_cons. cbn [String.length Spec.substitute_scan]. exact IH.
Qed.

Lemma scan_token (tok' replacement rest : string) :
  Spec.substitute_scan (String "$" tok') replacement O
    (String "$" tok' +:+ rest)
  = replacement
    +:+ Spec.substitute_scan (String "$" tok') replacement O rest.
Proof.
  pose proof (prefix_append (String "$" tok') rest) as Hp.
  rewrite append_cons in *. cbn [Spec.substitute_scan].
  rewrite Hp. cbn [String.length Nat.pred]. by rewrite scan_skip.
Qed.

Lemma scan_std_over_cli (replacement rest : string) :
  Spec.substitute_scan "$STD_VERSION" replacement O ("$CLI_VERSION" +:+ rest)
  = "$CLI_VERSION"
    +:+ Spec.substitute_scan "$STD_VERSION" replacement O rest.
Proof.
  change ("$CLI_VERSION" +:+ rest)
    with (String "$" (String "C" ("LI_VERSION" +:+ rest))).
  cbn [Spec.substitute_scan].
  assert (String.prefix "$STD_VERSION"
            (String "$" (String "C" ("LI_VERSION" +:+ rest))) = false) as ->
    by reflexivity.
  change (String "C" ("LI_VERSION" +:+ rest)) with ("CLI_VERSION" +:+ rest).
  change "$STD_VERSION" with (String "$" "STD_VERSION").
  by rewrite scan_text.
Qed.

(** X12: when the std version of the page is a string (an own entry of
    [cli_to_std] or the first listed std version, not a member inherited
    from the prototype) and neither it nor the version holds a dollar sign,
    content made of texts without dollar sign, [$CLI_VERSION] tokens and
    [$STD_VERSION] tokens is shown with every [$CLI_VERSION] replaced by
    the version and every [$STD_VERSION] by the std version, the texts
    being kept. *)
Theorem placeholders_are_filled (versionMeta : VersionMeta)
    (v sv : string) (segs : list Template.Segment)
    (Hstd : stdVersion versionMeta (Some v) = Runtime.VString sv)
    (Hv : Spec.plain v = true) (Hsv : Spec.plain sv = true)
    (Htexts : Template.plain_texts segs = true) :
  markdown_source versionMeta (Some v) (Template.assemble segs)
  = Runtime.Returned (Template.filled v sv segs).
Proof.
  rewrite (markdown_source_plain versionMeta v sv _ Hstd Hv Hsv).
  f_equal. unfold Spec.substitute_all.
  induction segs as [|seg segs IH]; [done|].
  cbn [Template.plain_texts forallb] in Htexts.
  apply andb_true_iff in Htexts as [Hseg Htexts].
  specialize (IH Htexts). cbn [Template.assemble Template.filled].
  destruct seg as [s| |]; cbn [Template.raw].
  - change "$STD_VERSION" with (String "$" "STD_VERSION").
    rewrite scan_text by exact Hseg.
    change "$CLI_VERSION" with (String "$" "CLI_VERSION").
    rewrite scan_text by exact Hseg. by rewrite <- IH.
  - rewrite scan_std_over_cli.
    change "$CLI_VERSION" with (String "$" "CLI_VERSION").
    rewrite scan_token. by rewrite <- IH.
  - change "$STD_VERSION" with (String "$" "STD_VERSION").
    rewrite scan_token.
    change "$CLI_VERSION" with (String "$" "CLI_VERSION").
    rewrite scan_text by exact Hsv. by rewrite <- IH.
Qed.

Lemma placeholders_are_filled_witness :
  let segs := [Template.Text "deno upgrade --version "; Template.CliToken;
               Template.Text ", std@"; Template.StdToken] in
  stdVersion Sample.versionMeta (Some "v1.20.0") = Runtime.VString "0.139.0"
  ∧ Spec.plain "v1.20.0" = true ∧ Spec.plain "0.139.0" = true
  ∧ Template.plain_texts segs = true
  ∧ markdown_source Sample.versionMeta (Some "v1.20.0")
      "deno upgrade --version $CLI_VERSION, std@$STD_VERSION"
    = Runtime.Returned "deno upgrade --version v1.20.0, std@0.139.0".
Proof.
  intros segs. split; [reflexivity|]. split; [reflexivity|].
  split; [reflexivity|]. split; [reflexivity|].
  exact (placeholders_are_filled Sample.versionMeta "v1.20.0" "0.139.0" segs
           eq_refl eq_refl eq_refl eq_refl).
Defined.

End TemplateFacts.

(** ** Runs of the search overlay *)

Section SearchFacts.

Lemma onPress_cases (key : string) (st : PageState) :
  Search.onPress key st
  = if negb (isOpen st) && Keys.hotkey key
    then (setIsOpen true st, [Search.PreventDefault; Search.FocusSearchInput])
    else (st, []).
Proof.
  unfold Search.onPress, Keys.hotkey.
  destruct (isOpen st); [done|]. cbn [negb andb].
  by destruct (String.eqb key "/" || String.eqb key "s").
Qed.

(** X13: over any run of keypresses, each handled by the listener of the
    state reached so far, the overlay ends open exactly when it was open
    before or one of the keys was [/] or [s]; the default action
    is prevented and the focus requested once, for the first such key
    pressed while closed, and never for a key pressed while open; nothing
    else of the state changes. *)
Theorem keypress_run (keys : list string) (st : PageState) :
  let '(st', acts) := Keys.run keys st in
  isOpen st' = isOpen st || existsb Keys.hotkey keys
  ∧ acts = (if negb (isOpen st) && existsb Keys.hotkey keys
            then [Search.PreventDefault; Search.FocusSearchInput] else [])
  ∧ tableOfContents st' = tableOfContents st
  ∧ content st' = content st
  ∧ pageList st' = pageList st
  ∧ pageIndex st' = pageIndex st.
Proof.
  revert st. induction keys as [|key keys IH]; intros st.
  - cbn [Keys.run existsb]. rewrite orb_false_r, andb_false_r. done.
  - cbn [Keys.run existsb]. rewrite onPress_cases. specialize (IH).
    destruct (isOpen st) eqn:Ho; cbn [negb andb orb].
    + specialize (IH st). destruct (Keys.run keys st) as [st' acts].
      rewrite Ho in IH. cbn [negb andb orb] in IH.
      destruct IH as (H1 & -> & H3). done.
    + destruct (Keys.hotkey key) eqn:Hk; cbn [orb].
      * specialize (IH (setIsOpen true st)).
        destruct (Keys.run keys (setIsOpen true st)) as [st' acts].
        cbn [isOpen setIsOpen negb andb orb tableOfContents content pageList
             pageIndex] in IH.
        destruct IH as (H1 & -> & H3). done.
      * specialize (IH st). destruct (Keys.run keys st) as [st' acts].
        rewrite Ho in IH. cbn [negb andb orb] in IH. exact IH.
Qed.

(** X14: closing the overlay after a keypress on the closed overlay gives
    back the state as it was before the keypress. *)
Theorem close_after_keypress (key : string) (st : PageState)
    (Hclosed : isOpen st = false) :
  (Search.onClose (Search.onPress key st).1).1 = st.
Proof.
  rewrite onPress_cases, Hclosed. destruct st as [toc c i l o].
  cbn [isOpen] in Hclosed. subst o.
  by destruct (Keys.hotkey key).
Qed.

Lemma close_after_keypress_witness :
  isOpen initial_state = false
  ∧ (Search.onClose (Search.onPress "/" initial_state).1).1 = initial_state.
Proof.
  split; [reflexivity|].
  exact (close_after_keypress "/" initial_state eq_refl).
Defined.

End SearchFacts.

(** ** The version switcher *)

Section SwitcherFacts.

Lemma includes_spec (versions : list string) (v : string) :
  Switcher.includes versions v = true ↔ v ∈ versions.
Proof.
  unfold Switcher.includes. induction versions as [|w versions IH].
  - split; [done|]. intros H. by apply elem_of_nil in H.
  - cbn [existsb]. rewrite orb_true_iff, IH, elem_of_cons.
    by rewrite String.eqb_eq.
Qed.

(** X15: the switcher always offers [main] and every known version, and it
    offers the current version whenever that is a non-empty string, so the
    value the [select] shows is one of its options. *)
Theorem current_version_is_offered (v : string) (versions : list string)
    (Hv : v ≠ "") :
  v ∈ Switcher.options (Some v) versions
  ∧ Switcher.selected (Some v) versions = Some v
  ∧ "main" ∈ Switcher.options (Some v) versions
  ∧ ∀ w, w ∈ versions → w ∈ Switcher.options (Some v) versions.
Proof.
  unfold Switcher.options.
  split; [|split; [done|split]].
  - destruct v as [|c v]; [done|]. cbn [Js.truthy andb].
    destruct (String.eqb_spec (String c v) "main") as [->|Hmain].
    + cbn [negb andb app]. apply elem_of_cons. by left.
    + cbn [negb andb].
      destruct (Switcher.includes versions (String c v)) eqn:Hin.
      * cbn [negb app]. apply elem_of_cons. right. by apply includes_spec.
      * cbn [negb]. apply elem_of_app. left. apply elem_of_cons. by left.
  - apply elem_of_app. right. apply elem_of_cons. by left.
  - intros w Hw. apply elem_of_app. right. apply elem_of_cons. by right.
Qed.

Lemma current_version_is_offered_witness :
  "canary" ≠ ""
  ∧ "canary" ∈ Switcher.options (Some "canary") (cli Sample.versionMeta).
Proof.
  split; [discriminate|].
  exact (proj1 (current_version_is_offered "canary" (cli Sample.versionMeta)
                  ltac:(discriminate))).
Defined.

(** X16: when the known versions are pairwise distinct and [main] is not
    one of them, the options of the switcher are pairwise distinct: the
    current version is added only when no option carries it yet. *)
Theorem options_are_distinct (version : option string)
    (versions : list string)
    (Hnd : NoDup versions) (Hmain : "main" ∉ versions) :
  NoDup (Switcher.options version versions).
Proof.
  assert (NoDup ("main" :: versions)) as Hbase by (by apply NoDup_cons).
  unfold Switcher.options. destruct version as [v|]; [|exact Hbase].
  destruct (Js.truthy v && negb (String.eqb v "main")
            && negb (Switcher.includes versions v)) eqn:Hadd; [|exact Hbase].
  apply andb_true_iff in Hadd as [Hadd Hin].
  apply andb_true_iff in Hadd as [_ Hne].
  apply negb_true_iff in Hin, Hne. apply String.eqb_neq in Hne.
  cbn [app]. apply NoDup_cons. split; [|exact Hbase].
  intros H. apply elem_of_cons in H as [H|H]; [done|].
  apply includes_spec in H. congruence.
Qed.

Lemma options_are_distinct_witness :
  NoDup (cli Sample.versionMeta) ∧ ("main" ∉ cli Sample.versionMeta)
  ∧ NoDup (Switcher.options (Some "canary") (cli Sample.versionMeta)).
Proof.
  assert (NoDup (cli Sample.versionMeta)) as Hnd
    by (by apply (bool_decide_unpack _)).
  assert ("main" ∉ cli Sample.versionMeta) as Hmain
    by (by apply (bool_decide_unpack _)).
  split; [exact Hnd|]. split; [exact Hmain|].
  exact (options_are_distinct (Some "canary") (cli Sample.versionMeta)
           Hnd Hmain).
Defined.

End SwitcherFacts.

(** ** Title, addresses and the std version *)

Section PageFacts.

(** X17: the title of the document is the plain [Manual | Deno] exactly
    when the title map has no entry for the path or an empty one; otherwise
    it is the entry followed by [ | Manual | Deno]. *)
Theorem default_title_iff_unresolved (tableOfContentsMap : gmap string string)
    (path : string) :
  (Title.document_title (Title.resolve tableOfContentsMap path)
   = "Manual | Deno"
   ↔ tableOfContentsMap !! path = None ∨ tableOfContentsMap !! path = Some "")
  ∧ ∀ t, tableOfContentsMap !! path = Some t → t ≠ "" →
      Title.document_title (Title.resolve tableOfContentsMap path)
      = t +:+ " | Manual | Deno".
Proof.
  assert (∀ t, t ≠ "" →
            Title.document_title t = t +:+ " | Manual | Deno") as Hnamed.
  { intros t Ht. unfold Title.document_title.
    by apply String.eqb_neq in Ht as ->. }
  unfold Title.resolve. split.
  - destruct (tableOfContentsMap !! path) as [[|c t]|].
    + split; [by right | done].
    + change (default "" (Js.or_else (Some (String c t)) (Some "")))
        with (String c t).
      rewrite Hnamed by done. split; [|by intros [H|H]]. intros H.
      apply (f_equal String.length) in H.
      rewrite length_append in H. cbn [String.length] in H. lia.
    + split; [by left | done].
  - intros t -> Ht. destruct t as [|c t]; [done|]. by apply Hnamed.
Qed.

(** X18: the address the page displays for itself is [https://deno.land]
    followed by the address the version switcher navigates to for the same
    version and path. *)
Theorem display_url_is_switcher_target (versionMeta : VersionMeta)
    (v path content : string) (st : PageState) :
  ∃ url,
    gotoVersion path v = Push "/[...rest]" url
    ∧ displayURL (render_article versionMeta (Some v) path st content)
      = "https://deno.land" +:+ url
    ∧ baseURL (render_article versionMeta (Some v) path st content) +:+ path
      = "https://deno.land" +:+ url.
Proof.
  eexists. split; [reflexivity|].
  cbn [displayURL baseURL render_article]. unfold version_suffix.
  destruct v as [|c v]; cbn [Js.truthy String.eqb negb].
  - done.
  - rewrite append_assoc. done.
Qed.

(** X19: when the manifest lists a std version, the std version of any
    page is defined: it is the own [cli_to_std] entry of the page's version
    if there is one, else the member [cli_to_std] inherits under that name
    if there is one, and the first listed std version otherwise (also for
    an undefined version). *)
Theorem std_version_is_defined (versionMeta : VersionMeta)
    (version : option string) (first : string)
    (Hstd : std versionMeta !! 0%nat = Some first) :
  stdVersion versionMeta version ≠ Runtime.VUndefined
  ∧ ((∃ v s, version = Some v
             ∧ Runtime.own (cli_to_std versionMeta) !! v = Some s
             ∧ stdVersion versionMeta version = Runtime.VString s)
     ∨ (∃ v m, version = Some v
               ∧ Runtime.own (cli_to_std versionMeta) !! v = None
               ∧ Runtime.inherited (cli_to_std versionMeta) v = Some m
               ∧ stdVersion versionMeta version = Runtime.VMember m)
     ∨ (stdVersion versionMeta version = Runtime.VString first
        ∧ ∀ v, version = Some v →
            Runtime.own (cli_to_std versionMeta) !! v = None
            ∧ Runtime.inherited (cli_to_std versionMeta) v = None)).
Proof.
  unfold stdVersion, Runtime.get. destruct version as [v|].
  - destruct (Runtime.own (cli_to_std versionMeta) !! v) as [s|] eqn:Hown.
    + split; [done|]. left. by exists v, s.
    + destruct (Runtime.inherited (cli_to_std versionMeta) v) as [m|] eqn:Hin.
      * split; [done|]. right. left. by exists v, m.
      * rewrite Hstd. split; [done|]. right. right. split; [done|].
        by intros ? [= <-].
  - rewrite Hstd. split; [done|]. right. right. split; [done|]. by intros ? [=].
Qed.

Lemma std_version_is_defined_witness :
  std Sample.versionMeta !! 0%nat = Some "0.140.0"
  ∧ stdVersion Sample.versionMeta (Some "canary") ≠ Runtime.VUndefined.
Proof.
  split; [reflexivity|].
  exact (proj1 (std_version_is_defined Sample.versionMeta (Some "canary")
                  "0.140.0" eq_refl)).
Defined.

End PageFacts.
